(** * vote-liq: the LiquidityManager ledger, embedded and verified

    The repository holds two implementations of one class,
    [LiquidityManager]: the typed one ([index.ts], module [TS] below) and the
    untyped one ([index.js], module [JS] below).  Both keep two JavaScript
    objects used as dictionaries,

      - [signedTxs]     : address -> array of {token1, token2, weight}
      - [addyOwnership] : address -> {percentage, tokens, voting_power}

    and derive per-pair incentives from them.

    Modelling choices.

    - A JavaScript object used as a dictionary is an association list in
      enumeration order (the order of [Object.keys], [Object.values] and
      [Object.entries]): the code sums, sorts and lists in that order.  A new
      key is appended, an existing key is overwritten in place.  Addresses are
      taken to be ordinary (non array-index, non [Object.prototype]) keys.
    - A JavaScript [number] is abstracted by the class [Number]; the methods
      are translated once, for any instance, and the theorems about them
      hold for every instance unless they name one.  [float] is IEEE 754
      binary64 as the kernel computes it: what the code runs on.  [jsnum]
      is a binary64 number or [null], the values that [index.js] holds in
      a number's place once it has taken a JSON copy.  [xnum], exact
      rationals extended with [NaN] and the two infinities, is arithmetic
      without rounding, overflow and signed zero: it is used only where a
      statement rests on comparisons alone.
    - A method that returns the tuple [[result, error]] returns [Result];
      a method that also mutates [this] returns the new state with it. *)

From Stdlib Require Import List String Ascii Bool ZArith Lia.
From Stdlib Require Import Permutation Sorted.
From Stdlib Require Import QArith Qcanon.
From Stdlib Require Qcabs.
From Stdlib Require Import Floats.
Import ListNotations.

Set Warnings "-inexact-float".
Set Implicit Arguments.

(** ** Numbers *)

Class Number (N : Type) : Type := {
  n_zero   : N;                 (* the literal 0 *)
  n_one    : N;                 (* the literal 1 and 1.0 *)
  n_milli  : N;                 (* the literal 0.001 *)
  n_add    : N -> N -> N;       (* a + b *)
  n_sub    : N -> N -> N;       (* a - b *)
  n_mul    : N -> N -> N;       (* a * b *)
  n_div    : N -> N -> N;       (* a / b *)
  n_abs    : N -> N;            (* Math.abs(a) *)
  n_lt     : N -> N -> bool;    (* a < b *)
  n_gt     : N -> N -> bool;    (* a > b *)
  n_eq     : N -> N -> bool;    (* a === b *)
  n_truthy : N -> bool          (* ToBoolean(a): false on 0 and NaN *)
}.

Declare Scope num_scope.
Delimit Scope num_scope with num.
Infix "+" := n_add : num_scope.
Infix "-" := n_sub : num_scope.
Infix "*" := n_mul : num_scope.
Infix "/" := n_div : num_scope.

(** *** IEEE 754 binary64 *)

#[export] Instance float_Number : Number float := {|
  n_zero   := 0%float;
  n_one    := 1%float;
  n_milli  := 0.001%float;
  n_add    := PrimFloat.add;
  n_sub    := PrimFloat.sub;
  n_mul    := PrimFloat.mul;
  n_div    := PrimFloat.div;
  n_abs    := PrimFloat.abs;
  n_lt     := PrimFloat.ltb;
  n_gt     := fun a b => PrimFloat.ltb b a;
  n_eq     := PrimFloat.eqb;
  n_truthy := fun a => negb (PrimFloat.eqb a 0 || PrimFloat.is_nan a)
|}.

(** *** A binary64 number or [null]

    [index.js] is untyped, and the JSON copies that its [initialize] and
    [getState] take turn a [NaN] and an infinity into [null].  The
    arithmetic operators, [Math.abs] and the comparisons [<] and [>] apply
    [ToNumber], which reads [null] as [0], and return a number; [||] tests
    [ToBoolean], false on [null]; [===] tells [null] from every number. *)

Inductive jsnum : Type :=
| Num (x : float)
| Null.

(** [ToNumber] *)
Definition to_number (v : jsnum) : float :=
  match v with
  | Num x => x
  | Null => 0%float
  end.

#[export] Instance jsnum_Number : Number jsnum := {|
  n_zero   := Num 0%float;
  n_one    := Num 1%float;
  n_milli  := Num 0.001%float;
  n_add    := fun a b => Num (PrimFloat.add (to_number a) (to_number b));
  n_sub    := fun a b => Num (PrimFloat.sub (to_number a) (to_number b));
  n_mul    := fun a b => Num (PrimFloat.mul (to_number a) (to_number b));
  n_div    := fun a b => Num (PrimFloat.div (to_number a) (to_number b));
  n_abs    := fun a => Num (PrimFloat.abs (to_number a));
  n_lt     := fun a b => PrimFloat.ltb (to_number a) (to_number b);
  n_gt     := fun a b => PrimFloat.ltb (to_number b) (to_number a);
  n_eq     := fun a b => match a, b with
                         | Num x, Num y => PrimFloat.eqb x y
                         | Null, Null => true
                         | _, _ => false
                         end;
  n_truthy := fun a => match a with
                       | Num x => negb (PrimFloat.eqb x 0 || PrimFloat.is_nan x)
                       | Null => false
                       end
|}.

(** [JSON.parse(JSON.stringify(v))] on a value in a number's place. *)
Class Json (N : Type) : Type := {
  n_json : N -> N
}.

(** [JSON.stringify] prints [NaN] and the infinities as [null], the negative
    zero as [0], and every other number with digits that [JSON.parse] reads
    back as the same number. *)
Definition jsnum_json (v : jsnum) : jsnum :=
  match v with
  | Num x =>
      if PrimFloat.is_nan x || PrimFloat.is_infinity x then Null
      else if PrimFloat.eqb x 0 then Num 0%float
      else Num x
  | Null => Null
  end.

#[export] Instance jsnum_Json : Json jsnum := {|
  n_json := jsnum_json
|}.

(** *** Exact arithmetic with the IEEE special values *)

Inductive xnum : Type :=
| Fin (q : Qc)
| PInf
| NInf
| NaN.

Definition qc_eqb (a b : Qc) : bool :=
  match (a ?= b)%Qc with Eq => true | _ => false end.

Definition qc_ltb (a b : Qc) : bool :=
  match (a ?= b)%Qc with Lt => true | _ => false end.

Definition x_add (a b : xnum) : xnum :=
  match a, b with
  | NaN, _ | _, NaN => NaN
  | PInf, NInf | NInf, PInf => NaN
  | PInf, _ | _, PInf => PInf
  | NInf, _ | _, NInf => NInf
  | Fin p, Fin q => Fin (p + q)
  end.

Definition x_opp (a : xnum) : xnum :=
  match a with
  | Fin p => Fin (- p)
  | PInf => NInf
  | NInf => PInf
  | NaN => NaN
  end.

Definition x_sub (a b : xnum) : xnum := x_add a (x_opp b).

(** The sign of an infinity scaled by a finite factor. *)
Definition x_scale_inf (positive : bool) (q : Qc) : xnum :=
  if qc_eqb q 0 then NaN
  else if xorb positive (qc_ltb q 0) then PInf else NInf.

Definition x_mul (a b : xnum) : xnum :=
  match a, b with
  | NaN, _ | _, NaN => NaN
  | Fin p, Fin q => Fin (p * q)
  | PInf, Fin q | Fin q, PInf => x_scale_inf true q
  | NInf, Fin q | Fin q, NInf => x_scale_inf false q
  | PInf, PInf | NInf, NInf => PInf
  | PInf, NInf | NInf, PInf => NInf
  end.

Definition x_div (a b : xnum) : xnum :=
  match a, b with
  | NaN, _ | _, NaN => NaN
  | Fin p, Fin q =>
      if qc_eqb q 0 then
        if qc_eqb p 0 then NaN else if qc_ltb p 0 then NInf else PInf
      else Fin (p / q)
  | Fin _, PInf | Fin _, NInf => Fin 0
  | PInf, Fin q => if qc_ltb q 0 then NInf else PInf
  | NInf, Fin q => if qc_ltb q 0 then PInf else NInf
  | PInf, PInf | PInf, NInf | NInf, PInf | NInf, NInf => NaN
  end.

Definition x_abs (a : xnum) : xnum :=
  match a with
  | Fin p => Fin (Qcabs.Qcabs p)
  | PInf | NInf => PInf
  | NaN => NaN
  end.

Definition x_lt (a b : xnum) : bool :=
  match a, b with
  | NaN, _ | _, NaN => false
  | Fin p, Fin q => qc_ltb p q
  | NInf, Fin _ | NInf, PInf | Fin _, PInf => true
  | _, _ => false
  end.

Definition x_eq (a b : xnum) : bool :=
  match a, b with
  | Fin p, Fin q => qc_eqb p q
  | PInf, PInf | NInf, NInf => true
  | _, _ => false
  end.

Definition x_truthy (a : xnum) : bool :=
  match a with
  | Fin p => negb (qc_eqb p 0)
  | PInf | NInf => true
  | NaN => false
  end.

#[export] Instance xnum_Number : Number xnum := {|
  n_zero   := Fin 0;
  n_one    := Fin 1;
  n_milli  := Fin (Q2Qc (1 # 1000));
  n_add    := x_add;
  n_sub    := x_sub;
  n_mul    := x_mul;
  n_div    := x_div;
  n_abs    := x_abs;
  n_lt     := x_lt;
  n_gt     := fun a b => x_lt b a;
  n_eq     := x_eq;
  n_truthy := x_truthy
|}.


(** ** JavaScript objects used as dictionaries *)

Definition Obj (V : Type) : Type := list (string * V).

Definition obj_keys {V} (o : Obj V) : list string := map fst o.
Definition obj_values {V} (o : Obj V) : list V := map snd o.

(** [o[k]], [None] for [undefined]. *)
Fixpoint obj_get {V} (o : Obj V) (k : string) : option V :=
  match o with
  | [] => None
  | (k', v) :: o' => if String.eqb k' k then Some v else obj_get o' k
  end.

(** [o[k] = v]. *)
Fixpoint obj_set {V} (o : Obj V) (k : string) (v : V) : Obj V :=
  match o with
  | [] => [(k, v)]
  | (k', v') :: o' =>
      if String.eqb k' k then (k', v) :: o' else (k', v') :: obj_set o' k v
  end.

(** [if (!o[k]) o[k] = dflt;] followed by an in-place update [f] of [o[k]]. *)
Fixpoint obj_upd {V} (o : Obj V) (k : string) (dflt : V) (f : V -> V) : Obj V :=
  match o with
  | [] => [(k, f dflt)]
  | (k', v) :: o' =>
      if String.eqb k' k then (k', f v) :: o' else (k', v) :: obj_upd o' k dflt f
  end.

(** ** Results and the data model ([types.ts]) *)

Inductive Result (T : Type) : Type :=
| Ok (value : T)
| Err (message : string).
Arguments Ok {T} value.
Arguments Err {T} message.

Section DataModel.
Variable N : Type.

Record LiquidityPreference : Type := {
  token1 : string;
  token2 : string;
  weight : N
}.

Record OwnershipDetails : Type := {
  percentage : N;
  tokens : N;
  voting_power : N
}.

Record LiquidityManagerState : Type := {
  signedTxs : Obj (list LiquidityPreference);
  addyOwnership : Obj OwnershipDetails
}.

(** [addressIncentives] is called [addressContributions] in [index.js]. *)
Record IncentivizedPair : Type := {
  pair_token1 : string;
  pair_token2 : string;
  totalIncentive : N;
  addressIncentives : Obj N
}.

Record PairIncentiveDetails : Type := {
  details_pair : IncentivizedPair;   (* ...pair, totalIncentive overwritten *)
  normalizedIncentives : Obj N
}.
End DataModel.

Arguments token1 {N} _.
Arguments token2 {N} _.
Arguments weight {N} _.
Arguments percentage {N} _.
Arguments tokens {N} _.
Arguments voting_power {N} _.
Arguments signedTxs {N} _.
Arguments addyOwnership {N} _.
Arguments pair_token1 {N} _.
Arguments pair_token2 {N} _.
Arguments totalIncentive {N} _.
Arguments addressIncentives {N} _.
Arguments details_pair {N} _.
Arguments normalizedIncentives {N} _.

(** [`${a}-${b}`] *)
Definition pair_key (a b : string) : string := (a ++ "-" ++ b)%string.

(** [[a, b].sort()]: the default sort compares strings by UTF-16 code unit.
    A token is held as its bytes, and [String.ltb] compares bytes: the two
    orders agree for tokens of characters below U+0080, and part only
    between a character of a supplementary plane and one from U+E000 on. *)
Definition sort2 (a b : string) : string * string :=
  if String.ltb b a then (b, a) else (a, b).

(** [arr.reduce((sum, x) => sum + x, 0)] *)
Definition sum {N} `{Number N} (l : list N) : N :=
  fold_left n_add l n_zero.

(** ** Array helpers *)

(** [arr.findIndex(p)], [None] for [-1]. *)
Fixpoint findIndex {A} (p : A -> bool) (l : list A) : option nat :=
  match l with
  | [] => None
  | x :: l' =>
      if p x then Some O
      else match findIndex p l' with Some i => Some (S i) | None => None end
  end.

(** An in-place update [f] of [arr[i]]. *)
Fixpoint update_at {A} (i : nat) (f : A -> A) (l : list A) : list A :=
  match l, i with
  | [], _ => []
  | x :: l', O => f x :: l'
  | x :: l', S j => x :: update_at j f l'
  end.

(** [arr.sort(cmp)].  ECMAScript requires a stable sort; for a consistent
    comparator the result is then determined, and it is the one of this
    stable insertion sort: an element moves behind a later one only when
    [cmp] is positive (a [NaN] from [cmp] counts as [0]). *)
Fixpoint sort_insert {A N} `{Number N} (cmp : A -> A -> N) (x : A) (l : list A)
  : list A :=
  match l with
  | [] => [x]
  | y :: l' =>
      if n_gt (cmp x y) n_zero then y :: sort_insert cmp x l' else x :: y :: l'
  end.

Definition array_sort {A N} `{Number N} (cmp : A -> A -> N) (l : list A)
  : list A :=
  fold_right (sort_insert cmp) [] l.

(** [arr.slice(0, limit)] for an integer [limit]: a negative [limit] counts
    from the end of the array. *)
Definition slice0 {A} (l : list A) (limit : Z) : list A :=
  let len := Z.of_nat (List.length l) in
  let final := if (limit <? 0)%Z then Z.max (len + limit) 0 else Z.min limit len in
  firstn (Z.to_nat final) l.

(** ** The typed implementation ([index.ts]) *)

Module TS.
Section Methods.
Context {N : Type} `{Number N}.
Local Open Scope num_scope.

Definition State : Type := LiquidityManagerState N.

(** [constructor()] *)
Definition empty : State := {| signedTxs := []; addyOwnership := [] |}.

(** [data] is [None] when the argument is [null], [undefined] or not an
    object. *)
Definition initialize (this : State) (data : option State)
  : State * Result unit :=
  match data with
  | None => (this, Err "Invalid initialization data")
  | Some d => (d, Ok tt)
  end.

Definition reset (this : State) : State * Result unit := (empty, Ok tt).

(** [{ ...this.state }] *)
Definition getState (this : State) : State :=
  {| signedTxs := signedTxs this; addyOwnership := addyOwnership this |}.

Definition normalizeLiquidityWeights (this : State) (address : string)
  : Result (list (LiquidityPreference N)) :=
  match obj_get (signedTxs this) address with
  | None => Err "Address not found"
  | Some preferences =>
      let totalWeight := sum (map weight preferences) in
      if n_eq totalWeight n_zero then Err "Total weight cannot be zero"
      else Ok (map (fun pref =>
                      {| token1 := token1 pref;
                         token2 := token2 pref;
                         weight := weight pref / totalWeight |})
                   preferences)
  end.

Definition getOwnershipDetails (this : State) (address : string)
  : Result (OwnershipDetails N) :=
  match obj_get (addyOwnership this) address with
  | None => Err "Address not found"
  | Some o => Ok o
  end.

Definition addLiquidityPreference (this : State)
    (address t1 t2 : string) (w : N) : State * Result unit :=
  match obj_get (addyOwnership this) address with
  | None => (this, Err "Address not found in ownership data")
  | Some _ =>
      let txs := match obj_get (signedTxs this) address with
                 | None => []
                 | Some l => l
                 end in
      let existingIndex :=
        findIndex (fun tx => String.eqb (token1 tx) t1
                             && String.eqb (token2 tx) t2) txs in
      let txs' :=
        match existingIndex with
        | Some i =>
            update_at i (fun tx => {| token1 := token1 tx;
                                      token2 := token2 tx;
                                      weight := w |}) txs
        | None => txs ++ [{| token1 := t1; token2 := t2; weight := w |}]
        end in
      ({| signedTxs := obj_set (signedTxs this) address txs';
          addyOwnership := addyOwnership this |}, Ok tt)
  end.

Definition recalculateVotingPower (this : State) : State :=
  let totalPercentage := sum (map percentage (obj_values (addyOwnership this))) in
  if n_eq totalPercentage n_zero then this
  else
    {| signedTxs := signedTxs this;
       addyOwnership :=
         map (fun '(address, o) =>
                (address, {| percentage := percentage o;
                             tokens := tokens o;
                             voting_power := percentage o / totalPercentage |}))
             (addyOwnership this) |}.

Definition updateOwnership (this : State)
    (address : string) (tokens_ percentage_ : N) : State * Result unit :=
  if n_lt percentage_ n_zero || n_gt percentage_ n_one then
    (this, Err "Percentage must be between 0 and 1")
  else
    let this1 :=
      {| signedTxs := signedTxs this;
         addyOwnership :=
           obj_set (addyOwnership this) address
                   {| percentage := percentage_;
                      tokens := tokens_;
                      voting_power := percentage_ |} |} in
    (recalculateVotingPower this1, Ok tt).

(** The body of [preferences.forEach(pref => ...)]. *)
Definition add_incentive (address : string) (ownership : OwnershipDetails N)
    (pairs : Obj (IncentivizedPair N)) (pref : LiquidityPreference N)
  : Obj (IncentivizedPair N) :=
  let pairKey := pair_key (token1 pref) (token2 pref) in
  let incentive := weight pref * voting_power ownership in
  obj_upd pairs pairKey
    {| pair_token1 := token1 pref;
       pair_token2 := token2 pref;
       totalIncentive := n_zero;
       addressIncentives := [] |}
    (fun p =>
       {| pair_token1 := pair_token1 p;
          pair_token2 := pair_token2 p;
          totalIncentive := totalIncentive p + incentive;
          addressIncentives := obj_set (addressIncentives p) address incentive |}).

(** The body of [Object.entries(this.state.signedTxs).forEach(...)]. *)
Definition add_address (this : State) (pairs : Obj (IncentivizedPair N))
    (entry : string * list (LiquidityPreference N))
  : Obj (IncentivizedPair N) :=
  let '(address, preferences) := entry in
  match obj_get (addyOwnership this) address with
  | None => pairs
  | Some ownership => fold_left (add_incentive address ownership) preferences pairs
  end.

Definition incentive_table (this : State) : Obj (IncentivizedPair N) :=
  fold_left (add_address this) (signedTxs this) [].

Definition getIncentivizedPairs (this : State)
  : Result (list (IncentivizedPair N)) :=
  Ok (obj_values (incentive_table this)).

(** [limit] is [None] when the argument is omitted. *)
Definition getTopIncentivizedPairs (this : State) (limit : option Z)
  : Result (list (IncentivizedPair N)) :=
  let limit := match limit with Some k => k | None => 5%Z end in
  match getIncentivizedPairs this with
  | Err e => Err e
  | Ok pairs =>
      Ok (slice0 (array_sort (fun a b => totalIncentive b - totalIncentive a)
                             pairs)
                 limit)
  end.

Definition getPairIncentiveDetails (this : State) (t1 t2 : string)
  : Result (PairIncentiveDetails N) :=
  match getIncentivizedPairs this with
  | Err e => Err e
  | Ok pairs =>
      match find (fun p =>
                    (String.eqb (pair_token1 p) t1 && String.eqb (pair_token2 p) t2)
                    || (String.eqb (pair_token1 p) t2 && String.eqb (pair_token2 p) t1))
                 pairs with
      | None => Err "Pair not found"
      | Some found =>
          let total := sum (obj_values (addressIncentives found)) in
          let normalized :=
            fold_left (fun acc '(address, incentive) =>
                         obj_set acc address (incentive / total))
                      (addressIncentives found) [] in
          Ok {| details_pair :=
                  {| pair_token1 := pair_token1 found;
                     pair_token2 := pair_token2 found;
                     totalIncentive := total;
                     addressIncentives := addressIncentives found |};
                normalizedIncentives := normalized |}
      end
  end.
End Methods.
End TS.

(** ** The untyped implementation ([index.js])

    The instance fields [this.signed_txs] and [this.addy_ownership] are the
    fields [signedTxs] and [addyOwnership] of the state record.  The
    argument of [initialize] names the two tables [signedTxs] and
    [addyOwnership]; the object that [getState] returns names them
    [signed_txs] and [addy_ownership]. *)

Module JS.
Section Methods.
Context {N : Type} `{Number N} `{Json N}.
Local Open Scope num_scope.

Definition State : Type := LiquidityManagerState N.

(** [constructor()] *)
Definition empty : State := {| signedTxs := []; addyOwnership := [] |}.

(** The argument of [initialize]: each field may be missing. *)
Record Options : Type := {
  opt_signedTxs : option (Obj (list (LiquidityPreference N)));
  opt_addyOwnership : option (Obj (OwnershipDetails N))
}.

(** [JSON.parse(JSON.stringify(v))] on the two tables. *)
Definition json_signedTxs (o : Obj (list (LiquidityPreference N)))
  : Obj (list (LiquidityPreference N)) :=
  map (fun '(address, l) =>
         (address, map (fun p => {| token1 := token1 p;
                                    token2 := token2 p;
                                    weight := n_json (weight p) |}) l)) o.

Definition json_addyOwnership (o : Obj (OwnershipDetails N))
  : Obj (OwnershipDetails N) :=
  map (fun '(address, d) =>
         (address, {| percentage := n_json (percentage d);
                      tokens := n_json (tokens d);
                      voting_power := n_json (voting_power d) |})) o.

Definition initialize (this : State) (options : Options)
  : State * Result bool :=
  let signed := match opt_signedTxs options with
                | Some t => json_signedTxs t
                | None => signedTxs this
                end in
  let owned := match opt_addyOwnership options with
               | Some t => json_addyOwnership t
               | None => addyOwnership this
               end in
  ({| signedTxs := signed; addyOwnership := owned |}, Ok true).

Definition reset (this : State) : State * Result bool := (empty, Ok true).

(** The object that [getState] returns. *)
Record Snapshot : Type := {
  signed_txs : Obj (list (LiquidityPreference N));
  addy_ownership : Obj (OwnershipDetails N)
}.

Definition getState (this : State) : Result Snapshot :=
  Ok {| signed_txs := json_signedTxs (signedTxs this);
        addy_ownership := json_addyOwnership (addyOwnership this) |}.

(** The weights are rewritten in place and the array itself is returned. *)
Definition normalizeLiquidityWeights (this : State) (address : string)
  : State * Result (list (LiquidityPreference N)) :=
  match obj_get (signedTxs this) address with
  | None => (this, Err "Address not found")
  | Some allocations =>
      let totalWeight := sum (map weight allocations) in
      if n_gt (n_abs (totalWeight - n_one)) n_milli then
        let allocations' :=
          map (fun allocation =>
                 {| token1 := token1 allocation;
                    token2 := token2 allocation;
                    weight := weight allocation / totalWeight |})
              allocations in
        ({| signedTxs := obj_set (signedTxs this) address allocations';
            addyOwnership := addyOwnership this |}, Ok allocations')
      else (this, Ok allocations)
  end.

Definition getOwnershipDetails (this : State) (address : string)
  : Result (OwnershipDetails N) :=
  match obj_get (addyOwnership this) address with
  | None => Err "Address not found in ownership records"
  | Some o => Ok o
  end.

Definition addLiquidityPreference (this : State)
    (address t1 t2 : string) (w : N)
  : State * Result (list (LiquidityPreference N)) :=
  let txs := match obj_get (signedTxs this) address with
             | None => []
             | Some l => l
             end in
  let '(standardToken1, standardToken2) := sort2 t1 t2 in
  let existingPairIndex :=
    findIndex (fun p =>
                 (String.eqb (token1 p) standardToken1
                  && String.eqb (token2 p) standardToken2)
                 || (String.eqb (token1 p) standardToken2
                     && String.eqb (token2 p) standardToken1)) txs in
  let txs' :=
    match existingPairIndex with
    | Some i =>
        update_at i (fun p => {| token1 := standardToken1;
                                 token2 := standardToken2;
                                 weight := weight p + w |}) txs
    | None => txs ++ [{| token1 := standardToken1;
                         token2 := standardToken2;
                         weight := w |}]
    end in
  let this1 := {| signedTxs := obj_set (signedTxs this) address txs';
                  addyOwnership := addyOwnership this |} in
  let this2 := fst (normalizeLiquidityWeights this1 address) in
  (this2, Ok (match obj_get (signedTxs this2) address with
              | Some l => l
              | None => []
              end)).

Definition updateOwnership (this : State)
    (address : string) (tokens_ percentage_ : N)
  : State * Result (OwnershipDetails N) :=
  let updated := {| percentage := percentage_;
                    tokens := tokens_;
                    voting_power := percentage_ |} in
  ({| signedTxs := signedTxs this;
      addyOwnership :=
        obj_upd (addyOwnership this) address
                {| percentage := n_zero; tokens := n_zero; voting_power := n_zero |}
                (fun _ => updated) |},
   Ok updated).

Definition recalculateVotingPower (this : State)
  : State * Result (Obj (OwnershipDetails N)) :=
  let totalPercentage := sum (map percentage (obj_values (addyOwnership this))) in
  if n_gt (n_abs (totalPercentage - n_one)) n_milli then
    let owned :=
      map (fun '(address, o) =>
             (address, {| percentage := percentage o / totalPercentage;
                          tokens := tokens o;
                          voting_power := percentage o / totalPercentage |}))
          (addyOwnership this) in
    ({| signedTxs := signedTxs this; addyOwnership := owned |}, Ok owned)
  else (this, Ok (addyOwnership this)).

(** [this.addy_ownership[address]?.voting_power || 0] *)
Definition votingPowerOf (this : State) (address : string) : N :=
  match obj_get (addyOwnership this) address with
  | None => n_zero
  | Some o => if n_truthy (voting_power o) then voting_power o else n_zero
  end.

(** The body of [this.signed_txs[address].forEach(pair => ...)]. *)
Definition add_contribution (address : string) (votingPower : N)
    (pairIncentives : Obj (IncentivizedPair N)) (p : LiquidityPreference N)
  : Obj (IncentivizedPair N) :=
  let '(t1, t2) := sort2 (token1 p) (token2 p) in
  let pairKey := pair_key t1 t2 in
  let contribution := votingPower * weight p in
  obj_upd pairIncentives pairKey
    {| pair_token1 := t1;
       pair_token2 := t2;
       totalIncentive := n_zero;
       addressIncentives := [] |}
    (fun e =>
       {| pair_token1 := pair_token1 e;
          pair_token2 := pair_token2 e;
          totalIncentive := totalIncentive e + contribution;
          addressIncentives := obj_set (addressIncentives e) address contribution |}).

(** The body of [Object.keys(this.signed_txs).forEach(address => ...)];
    [this.signed_txs[address]] is the value of the entry. *)
Definition add_address (this : State) (pairIncentives : Obj (IncentivizedPair N))
    (entry : string * list (LiquidityPreference N))
  : Obj (IncentivizedPair N) :=
  let '(address, allocations) := entry in
  fold_left (add_contribution address (votingPowerOf this address))
            allocations pairIncentives.

Definition getIncentivizedPairs (this : State)
  : Result (Obj (IncentivizedPair N)) :=
  Ok (fold_left (add_address this) (signedTxs this) []).

(** [limit] is [None] when the argument is omitted. *)
Definition getTopIncentivizedPairs (this : State) (limit : option Z)
  : Result (list (IncentivizedPair N)) :=
  let limit := match limit with Some k => k | None => 10%Z end in
  match getIncentivizedPairs this with
  | Err e => Err e
  | Ok pairIncentives =>
      Ok (slice0 (array_sort (fun a b => totalIncentive b - totalIncentive a)
                             (obj_values pairIncentives))
                 limit)
  end.

Definition getPairIncentiveDetails (this : State) (t1 t2 : string)
  : Result (IncentivizedPair N) :=
  let '(standardToken1, standardToken2) := sort2 t1 t2 in
  let pairKey := pair_key standardToken1 standardToken2 in
  match getIncentivizedPairs this with
  | Err e => Err e
  | Ok allPairs =>
      match obj_get allPairs pairKey with
      | None => Err "Token pair not found in incentives"
      | Some found => Ok found
      end
  end.
End Methods.
End JS.

(** ** Scenarios *)

Module Scenario.
Local Open Scope float_scope.

Definition pref (a b : string) (w : float) : LiquidityPreference float :=
  {| token1 := a; token2 := b; weight := w |}.

Definition owns (p t v : float) : OwnershipDetails float :=
  {| percentage := p; tokens := t; voting_power := v |}.

(** Ownership [{A: 0.6, B: 0.4}], preferences [A: X-Y 0.7], [B: X-Y 0.5]. *)
Definition ledger : LiquidityManagerState float :=
  {| signedTxs := [ ("A", [pref "X" "Y" 0.7]); ("B", [pref "X" "Y" 0.5]) ]%string;
     addyOwnership := [ ("A", owns 0.6 1000000 0.6);
                        ("B", owns 0.4 500000 0.4) ]%string |}.

(** A has the single preference X-Y with weight 0 (all-zero weights). *)
Definition zero_weights : LiquidityManagerState float :=
  {| signedTxs := [ ("A", [pref "X" "Y" 0]) ]%string;
     addyOwnership := [ ("A", owns 1 1000 1) ]%string |}.

(** A has a preference but no ownership record. *)
Definition unowned : LiquidityManagerState float :=
  {| signedTxs := [ ("A", [pref "X" "Y" 0.7]) ]%string;
     addyOwnership := [] |}.

(** A has a preference and an ownership record with voting power 0. *)
Definition powerless : LiquidityManagerState float :=
  {| signedTxs := [ ("A", [pref "X" "Y" 0.7]) ]%string;
     addyOwnership := [ ("A", owns 0 1000 0) ]%string |}.

(** A's weights sum to 1.0005, inside the band that [index.js] leaves alone. *)
Definition nearly_normal : LiquidityManagerState float :=
  {| signedTxs := [ ("A", [pref "X" "Y" 0.5; pref "P" "Q" 0.5005]) ]%string;
     addyOwnership := [ ("A", owns 1 1000 1) ]%string |}.

(** A and B prefer two different pairs. *)
Definition two_pairs : LiquidityManagerState float :=
  {| signedTxs := [ ("A", [pref "X" "Y" 0.7]); ("B", [pref "P" "Q" 0.5]) ]%string;
     addyOwnership := [ ("A", owns 0.6 1000000 0.6);
                        ("B", owns 0.4 500000 0.4) ]%string |}.

(** A has two records for the pair X-Y. *)
Definition repeated : LiquidityManagerState float :=
  {| signedTxs := [ ("A", [pref "X" "Y" 0.5; pref "X" "Y" 0.25]) ]%string;
     addyOwnership := [ ("A", owns 1 1000 1) ]%string |}.

(** Percentages 0.6 and 0.6 in binary64. *)
Definition over_owned64 : LiquidityManagerState float :=
  {| signedTxs := [];
     addyOwnership := [ ("add1", owns 0.6 600000 0.6);
                        ("add2", owns 0.6 600000 0.6) ]%string |}.

(** Two owners with percentage 0: the total is 0. *)
Definition unstaked64 : LiquidityManagerState float :=
  {| signedTxs := [];
     addyOwnership := [ ("add1", owns 0 0 0); ("add2", owns 0 0 0) ]%string |}.
(** A has a record for X-Y and one for Y-X. *)
Definition swapped : LiquidityManagerState float :=
  {| signedTxs := [ ("A", [pref "X" "Y" 0.5; pref "Y" "X" 0.25]) ]%string;
     addyOwnership := [ ("A", owns 1 1000 1) ]%string |}.

(** Weights that cancel: 1e16, 5.1 and -1e16 add up to 6 in binary64. *)
Definition cancelling : LiquidityManagerState float :=
  {| signedTxs := [ ("A", [pref "X" "Y" 1e16; pref "P" "Q" 5.1;
                           pref "R" "S" (-1e16)]) ]%string;
     addyOwnership := [ ("A", owns 1 1000 1) ]%string |}.

(** Percentages whose sum overflows. *)
Definition overflowing : LiquidityManagerState float :=
  {| signedTxs := [];
     addyOwnership := [ ("add1", owns 1e308 1 1e308);
                        ("add2", owns 1e308 1 1e308) ]%string |}.

(** Finite weights and voting powers whose products overflow: B and C
    contribute [Infinity] and [-Infinity] to the pair P-Q. *)
Definition clashing : LiquidityManagerState float :=
  {| signedTxs := [ ("A", [pref "X" "Y" 1]);
                    ("B", [pref "P" "Q" 1e308]);
                    ("C", [pref "P" "Q" (-1e308)]);
                    ("D", [pref "R" "S" 2]) ]%string;
     addyOwnership := [ ("A", owns 1 1 1); ("B", owns 1 1 10);
                        ("C", owns 1 1 10); ("D", owns 1 1 1) ]%string |}.

(** A's voting power is the negative zero. *)
Definition negative_zero : LiquidityManagerState float :=
  {| signedTxs := [ ("A", [pref "X" "Y" 0.7]) ]%string;
     addyOwnership := [ ("A", owns 0 1000 (-0)) ]%string |}.



End Scenario.

(** ** Predicates used by the statements *)

Section Predicates.
Context {N : Type} `{Number N} `{Json N}.




(** The pair key under which [index.ts] files a preference record. *)
Definition ts_key (p : LiquidityPreference N) : string :=
  pair_key (token1 p) (token2 p).



(** The pair key under which [index.js] files a preference record. *)
Definition js_key (p : LiquidityPreference N) : string :=
  let '(t1, t2) := sort2 (token1 p) (token2 p) in pair_key t1 t2.

(** The test of [pairs.find] in [getPairIncentiveDetails] of [index.ts]. *)
Definition carries (t1 t2 : string) (p : IncentivizedPair N) : bool :=
  (String.eqb (pair_token1 p) t1 && String.eqb (pair_token2 p) t2)
  || (String.eqb (pair_token1 p) t2 && String.eqb (pair_token2 p) t1).



End Predicates.


(** [a <= b] on the exact numbers; nothing compares with [NaN]. *)
Definition x_le (a b : xnum) : Prop :=
  match a, b with
  | NaN, _ | _, NaN => False
  | NInf, _ | _, PInf => True
  | Fin p, Fin q => (p <= q)%Qc
  | _, _ => False
  end.

(** A sequence of pairs in descending order of [totalIncentive]: every pair
    has at least the total of every later one. *)
Definition descending (l : list (IncentivizedPair xnum)) : Prop :=
  StronglySorted (fun a b => x_le (totalIncentive b) (totalIncentive a)) l.

(** ** Predicates for the further properties *)

Section Upserts.
Context {N : Type}.

(** The records stored for [address]; none when it has no entry. *)
Definition prefs_of (s : LiquidityManagerState N) (address : string)
  : list (LiquidityPreference N) :=
  match obj_get (signedTxs s) address with
  | Some l => l
  | None => []
  end.

(** The test of [findIndex] in [addLiquidityPreference] of [index.ts]. *)
Definition same_tokens (t1 t2 : string) (tx : LiquidityPreference N) : bool :=
  String.eqb (token1 tx) t1 && String.eqb (token2 tx) t2.

(** The tokens of a record, in the order they are stored. *)
Definition ordered_tokens (p : LiquidityPreference N) : string * string :=
  (token1 p, token2 p).

(** What [addLiquidityPreference] of [index.ts] makes of the list of the
    address: the weight of the first record with these tokens is
    overwritten, or a record is pushed. *)
Definition ts_upsert (t1 t2 : string) (w : N) (txs : list (LiquidityPreference N))
  : list (LiquidityPreference N) :=
  match findIndex (same_tokens t1 t2) txs with
  | Some i =>
      update_at i (fun tx => {| token1 := token1 tx;
                                token2 := token2 tx;
                                weight := w |}) txs
  | None => txs ++ [{| token1 := t1; token2 := t2; weight := w |}]
  end.
End Upserts.

Section JsUpserts.
Context {N : Type} `{Number N}.

(** The test of [findIndex] in [addLiquidityPreference] of [index.js]. *)
Definition either_tokens (s1 s2 : string) (p : LiquidityPreference N) : bool :=
  (String.eqb (token1 p) s1 && String.eqb (token2 p) s2)
  || (String.eqb (token1 p) s2 && String.eqb (token2 p) s1).

(** What [addLiquidityPreference] of [index.js] makes of the list of the
    address, before it normalises: the weight is added to the first record
    of the pair, in either order of its tokens, or a record is pushed. *)
Definition js_upsert (s1 s2 : string) (w : N) (txs : list (LiquidityPreference N))
  : list (LiquidityPreference N) :=
  match findIndex (either_tokens s1 s2) txs with
  | Some i =>
      update_at i (fun p => {| token1 := s1;
                               token2 := s2;
                               weight := n_add (weight p) w |}) txs
  | None => txs ++ [{| token1 := s1; token2 := s2; weight := w |}]
  end.

End JsUpserts.


Section Built.
Context {N : Type} `{Number N}.


End Built.

(** Whether a token contains the separator of the pair keys. *)
Fixpoint has_dash (s : string) : bool :=
  match s with
  | EmptyString => false
  | String c s' => Ascii.eqb c "-"%char || has_dash s'
  end.


Section Postings.
Context {N : Type} `{Number N}.

(** One execution of the innermost loop body of [getIncentivizedPairs]: the
    [amount] that [address] contributes to the pair filed under [key]. *)
Record posting : Type := {
  po_address : string;
  po_key : string;
  po_token1 : string;
  po_token2 : string;
  po_amount : N
}.

(** What the loop body does to the table of pairs. *)
Definition post (table : Obj (IncentivizedPair N)) (x : posting)
  : Obj (IncentivizedPair N) :=
  obj_upd table (po_key x)
    {| pair_token1 := po_token1 x;
       pair_token2 := po_token2 x;
       totalIncentive := n_zero;
       addressIncentives := [] |}
    (fun e =>
       {| pair_token1 := pair_token1 e;
          pair_token2 := pair_token2 e;
          totalIncentive := n_add (totalIncentive e) (po_amount x);
          addressIncentives := obj_set (addressIncentives e) (po_address x)
                                       (po_amount x) |}).

(** The loop bodies that [index.ts] executes, in order: one for each record
    of each address that has an ownership record. *)
Definition ts_postings (this : LiquidityManagerState N) : list posting :=
  flat_map (fun '(address, prefs) =>
              match obj_get (addyOwnership this) address with
              | None => []
              | Some ownership =>
                  map (fun p => {| po_address := address;
                                   po_key := ts_key p;
                                   po_token1 := token1 p;
                                   po_token2 := token2 p;
                                   po_amount := n_mul (weight p)
                                                      (voting_power ownership) |})
                      prefs
              end)
           (signedTxs this).

(** The loop bodies that [index.js] executes, in order: one for each record
    of each address. *)
Definition js_postings (this : LiquidityManagerState N) : list posting :=
  flat_map (fun '(address, prefs) =>
              map (fun p => {| po_address := address;
                               po_key := js_key p;
                               po_token1 := fst (sort2 (token1 p) (token2 p));
                               po_token2 := snd (sort2 (token1 p) (token2 p));
                               po_amount := n_mul (JS.votingPowerOf this address)
                                                  (weight p) |})
                  prefs)
           (signedTxs this).


End Postings.

(** Every stored record has its tokens in the order of [[a, b].sort()]. *)
Definition sorted_records {N : Type} (s : LiquidityManagerState N) : Prop :=
  forall address prefs p,
    In (address, prefs) (signedTxs s) -> In p prefs ->
    String.ltb (token2 p) (token1 p) = false.

(** Every address with a record has an ownership record, with a voting
    power for which [voting_power || 0] is the voting power itself: not
    [NaN] and not the negative zero. *)
Definition owners_numbered (s : LiquidityManagerState float) : Prop :=
  forall address prefs,
    In (address, prefs) (signedTxs s) -> prefs <> [] ->
    exists o, obj_get (addyOwnership s) address = Some o
              /\ (n_truthy (voting_power o) = true \/ voting_power o = n_zero).

(** A token of characters below U+0080; for two of them the order of
    [[a, b].sort()], by UTF-16 code units, is the order of their bytes. *)
Definition ascii_token (t : string) : Prop :=
  Forall (fun c => (nat_of_ascii c < 128)%nat) (list_ascii_of_string t).

Definition ascii_records {N : Type} (s : LiquidityManagerState N) : Prop :=
  forall address prefs p,
    In (address, prefs) (signedTxs s) -> In p prefs ->
    ascii_token (token1 p) /\ ascii_token (token2 p).

Section Rescaling.
Context {N : Type} `{Number N}.

(** The records with every weight divided by [total]. *)
Definition rescaled (total : N) (l : list (LiquidityPreference N))
  : list (LiquidityPreference N) :=
  map (fun p => {| token1 := token1 p;
                   token2 := token2 p;
                   weight := n_div (weight p) total |}) l.

(** The owners with every percentage divided by [total] and every voting
    power set to the new percentage. *)
Definition reshared (total : N) (o : Obj (OwnershipDetails N))
  : Obj (OwnershipDetails N) :=
  map (fun '(address, d) =>
         (address, {| percentage := n_div (percentage d) total;
                      tokens := tokens d;
                      voting_power := n_div (percentage d) total |})) o.

(** The sum of the percentages of the owners. *)
Definition total_percentage (s : LiquidityManagerState N) : N :=
  sum (map percentage (obj_values (addyOwnership s))).

(** [total] fails the test [Math.abs(total - 1.0) > 0.001]. *)
Definition within_band (total : N) : Prop :=
  n_gt (n_abs (n_sub total n_one)) n_milli = false.

(** [a] is not below [b] in [totalIncentive]. *)
Definition not_below (a b : IncentivizedPair N) : Prop :=
  n_lt (totalIncentive a) (totalIncentive b) = false.

(** The comparator [(a, b) => b.totalIncentive - a.totalIncentive] ranks the
    pairs of [l] by their totals: its result is positive exactly when [a] is
    below [b], no two pairs are below each other, and being not below is
    transitive. *)
Definition ranked (l : list (IncentivizedPair N)) : Prop :=
  (forall a b, In a l -> In b l ->
     n_gt (n_sub (totalIncentive b) (totalIncentive a)) n_zero
     = n_lt (totalIncentive a) (totalIncentive b))
  /\ (forall a b, In a l -> In b l ->
        n_lt (totalIncentive a) (totalIncentive b) = true -> not_below b a)
  /\ (forall a b c, In a l -> In b l -> In c l ->
        not_below a b -> not_below b c -> not_below a c).

(** A sequence of pairs in which no pair is below a later one. *)
Definition in_descending_order (l : list (IncentivizedPair N)) : Prop :=
  StronglySorted not_below l.

(** What [slice(0, k)] keeps: the first [k] elements when [k] is not
    negative, all but the last [-k] when it is. *)
Definition sliced (k : Z) (pairs top : list (IncentivizedPair N)) : Prop :=
  ((0 <= k)%Z -> List.length top = Nat.min (Z.to_nat k) (List.length pairs))
  /\ ((k < 0)%Z -> List.length top = (List.length pairs - Z.to_nat (- k))%nat).
End Rescaling.

(** The property names that every object inherits from [Object.prototype]:
    for these [o[k]] finds a value in an object that holds no such key. *)
Definition inherited_names : list string :=
  [ "constructor"; "__proto__"; "hasOwnProperty"; "isPrototypeOf";
    "propertyIsEnumerable"; "toLocaleString"; "toString"; "valueOf";
    "__defineGetter__"; "__defineSetter__"; "__lookupGetter__";
    "__lookupSetter__" ]%string.

(** A string of decimal digits.  Keys that are array indices are listed
    first, in numeric order, whenever they were added. *)
Definition all_digits (k : string) : bool :=
  forallb (fun c => (48 <=? nat_of_ascii c)%nat && (nat_of_ascii c <=? 57)%nat)
          (list_ascii_of_string k).

(** A key for which [o[k]] is what the dictionary itself holds, and which is
    listed after the keys added before it. *)
Definition plain_key (k : string) : Prop :=
  ~ In k inherited_names /\ all_digits k = false.


(** * Verification *)

(** ** Facts about dictionaries *)

Section ObjFacts.
Context {V : Type}.
Implicit Types (o : Obj V) (k : string) (v : V).

Lemma obj_get_set_same o k v : obj_get (obj_set o k v) k = Some v.
Proof.
  induction o as [|[k' v'] o IH]; simpl.
  - now rewrite String.eqb_refl.
  - destruct (String.eqb k' k) eqn:E; simpl; rewrite E; auto.
Qed.

Lemma obj_get_set_other o k k' v :
  k <> k' -> obj_get (obj_set o k v) k' = obj_get o k'.
Proof.
  intro Hne. induction o as [|[k0 v0] o IH]; simpl.
  - apply String.eqb_neq in Hne. now rewrite Hne.
  - destruct (String.eqb k0 k) eqn:E; simpl.
    + apply String.eqb_eq in E; subst k0.
      apply String.eqb_neq in Hne. now rewrite Hne.
    + now rewrite IH.
Qed.



Lemma obj_get_None_keys o k : obj_get o k = None <-> ~ In k (obj_keys o).
Proof.
  induction o as [|[k' v'] o IH]; simpl.
  - tauto.
  - destruct (String.eqb k' k) eqn:E.
    + apply String.eqb_eq in E. split; [discriminate|tauto].
    + apply String.eqb_neq in E. rewrite IH. tauto.
Qed.



Lemma obj_keys_set o k v :
  obj_keys (obj_set o k v)
  = match obj_get o k with Some _ => obj_keys o | None => obj_keys o ++ [k] end.
Proof.
  induction o as [|[k' v'] o IH]; simpl; [reflexivity|].
  destruct (String.eqb k' k) eqn:E; simpl; [reflexivity|].
  rewrite IH. now destruct (obj_get o k).
Qed.


Lemma NoDup_snoc (l : list string) k : NoDup l -> ~ In k l -> NoDup (l ++ [k]).
Proof.
  induction 1 as [|x l Hx Hnd IH]; simpl; intro Hk.
  - constructor; [tauto|constructor].
  - constructor.
    + rewrite in_app_iff; simpl. intuition congruence.
    + apply IH. tauto.
Qed.

Lemma obj_set_NoDup o k v : NoDup (obj_keys o) -> NoDup (obj_keys (obj_set o k v)).
Proof.
  intro Hnd. rewrite obj_keys_set.
  destruct (obj_get o k) eqn:E; [assumption|].
  apply NoDup_snoc; [assumption|now apply obj_get_None_keys].
Qed.


(** A value written under a fresh key goes to the end. *)
Lemma obj_set_fresh o k v : obj_get o k = None -> obj_set o k v = o ++ [(k, v)].
Proof.
  induction o as [|[k' v'] o IH]; simpl; [reflexivity|].
  destruct (String.eqb k' k); [discriminate|].
  intro Hn. now rewrite IH.
Qed.
End ObjFacts.

(** ** Loading and reading back the state *)

Section RoundTrip.
Context {N : Type} `{Json N}.



End RoundTrip.

(** C1.  On the ledger with ownership [{A: 0.6, B: 0.4}] and preferences
    [A: (X,Y,0.7)], [B: (X,Y,0.5)], [getIncentivizedPairs] of both
    implementations yields exactly one pair, X-Y, whose [totalIncentive] is
    the double [0.62] and whose per-address contributions are the doubles
    [0.42] for A and [0.2] for B. *)
Theorem scenario_incentivized_pairs :
  TS.getIncentivizedPairs Scenario.ledger
  = Ok [ {| pair_token1 := "X"; pair_token2 := "Y";
            totalIncentive := 0.62%float;
            addressIncentives := [("A", 0.42%float); ("B", 0.2%float)]%string |} ]
  /\ JS.getIncentivizedPairs Scenario.ledger
     = Ok [ ("X-Y"%string,
             {| pair_token1 := "X"; pair_token2 := "Y";
                totalIncentive := 0.62%float;
                addressIncentives := [("A", 0.42%float); ("B", 0.2%float)]%string |}) ].
Proof. split; vm_compute; reflexivity. Qed.



(** ** Facts about the exact numbers *)

Lemma qc_eqb_eq (a b : Qc) : qc_eqb a b = true <-> a = b.
Proof.
  unfold qc_eqb. rewrite Qceq_alt.
  destruct (a ?= b)%Qc; split; congruence.
Qed.

Lemma qc_eqb_neq (a b : Qc) : qc_eqb a b = false <-> a <> b.
Proof.
  rewrite <- qc_eqb_eq. destruct (qc_eqb a b); split; congruence.
Qed.

Lemma qc_ltb_lt (a b : Qc) : qc_ltb a b = true <-> (a < b)%Qc.
Proof.
  unfold qc_ltb. rewrite Qclt_alt.
  destruct (a ?= b)%Qc; split; congruence.
Qed.

Lemma qc_ltb_ge (a b : Qc) : qc_ltb a b = false <-> (b <= a)%Qc.
Proof.
  split; intro Hab.
  - apply Qcnot_lt_le. intro Hlt. apply qc_ltb_lt in Hlt. congruence.
  - destruct (qc_ltb a b) eqn:E; [|reflexivity].
    apply qc_ltb_lt in E. exfalso. eapply Qclt_not_le; eassumption.
Qed.

(** ** Where the two implementations part from the specification *)

Module Counterexamples.

Local Open Scope float_scope.

(** Against C6: [index.js], two owners with the percentage 1e308, as
    [updateOwnership] of [index.js] writes them: the sum overflows, the first
    call leaves the percentages 0 and 0, and the second call, dividing 0 by
    0, leaves [NaN] and [NaN]. *)
Lemma js_recalculate_not_idempotent :
  let once := fst (JS.recalculateVotingPower Scenario.overflowing) in
  let twice := fst (JS.recalculateVotingPower once) in
  fst (JS.updateOwnership (fst (JS.updateOwnership JS.empty "add1" 1 1e308))
                          "add2" 1 1e308)
  = Scenario.overflowing
  /\ addyOwnership once
     = [ ("add1", Scenario.owns 0 1 0); ("add2", Scenario.owns 0 1 0) ]%string
  /\ addyOwnership twice
     = [ ("add1", Scenario.owns nan 1 nan);
         ("add2", Scenario.owns nan 1 nan) ]%string.
Proof. repeat split. Qed.



(** Against C2: [index.js], weights 0.5 and 0.5005: the sum is within 0.001
    of 1, the weights are returned as they are, and their sum is further
    than 1e-9 from 1. *)
Lemma js_normalize_keeps_near_one :
  snd (JS.normalizeLiquidityWeights Scenario.nearly_normal "A")
  = Ok [Scenario.pref "X" "Y" 0.5; Scenario.pref "P" "Q" 0.5005]
  /\ n_eq (sum [0.5; 0.5005]) n_zero = false
  /\ n_gt (n_abs (sum [0.5; 0.5005] - 1)) 1e-9 = true.
Proof. repeat split. Qed.

(** Against C3: two pairs and [limit = -1]: [slice(0, -1)] drops the last
    element only, so one pair is returned, in both implementations. *)
Lemma top_pairs_negative_limit_not_empty :
  TS.getTopIncentivizedPairs Scenario.two_pairs (Some (-1)%Z)
  = Ok [ {| pair_token1 := "X"; pair_token2 := "Y";
            totalIncentive := 0.42;
            addressIncentives := [("A", 0.42)]%string |} ]
  /\ JS.getTopIncentivizedPairs Scenario.two_pairs (Some (-1)%Z)
     = Ok [ {| pair_token1 := "X"; pair_token2 := "Y";
               totalIncentive := 0.42;
               addressIncentives := [("A", 0.42)]%string |} ].
Proof. split; vm_compute; reflexivity. Qed.


(** Against C9: [index.js] returns the pair entry alone, with no normalised
    contributions; in [index.ts], when the only contribution to X-Y is 0,
    the call succeeds and the normalised contribution is [0 / 0 = NaN]. *)
Lemma pair_details_not_normalised :
  JS.getPairIncentiveDetails Scenario.ledger "X" "Y"
  = Ok {| pair_token1 := "X"; pair_token2 := "Y";
          totalIncentive := 0.62;
          addressIncentives := [("A", 0.42); ("B", 0.2)]%string |}
  /\ TS.getPairIncentiveDetails Scenario.powerless "X" "Y"
     = Ok {| details_pair :=
               {| pair_token1 := "X"; pair_token2 := "Y";
                  totalIncentive := 0;
                  addressIncentives := [("A", 0)]%string |};
             normalizedIncentives := [("A", nan)]%string |}.
Proof. split; vm_compute; reflexivity. Qed.

End Counterexamples.

(** ** [updateOwnership] *)




(** ** [normalizeLiquidityWeights]: the failures *)



(** The scenario of the specification on binary64: a preference of weight 0
    is added for A, whose weights are all 0.  [index.ts] then refuses to
    normalise and the list is as [addLiquidityPreference] left it;
    [index.js] has normalised on insertion and holds [NaN] weights. *)
Example zero_weights_then_normalize :
  let ts := fst (TS.addLiquidityPreference Scenario.zero_weights "A" "P" "Q" 0%float) in
  let js := fst (JS.addLiquidityPreference Scenario.zero_weights "A" "P" "Q" 0%float) in
  obj_get (signedTxs ts) "A"
  = Some [Scenario.pref "X" "Y" 0%float; Scenario.pref "P" "Q" 0%float]
  /\ TS.normalizeLiquidityWeights ts "A" = Err "Total weight cannot be zero"
  /\ obj_get (signedTxs js) "A"
     = Some [Scenario.pref "X" "Y" nan; Scenario.pref "P" "Q" nan].
Proof. repeat split. Qed.

(** ** [getIncentivizedPairs]: the total and the per-address map *)

Section Totals.
Context {N : Type} `{Number N}.


Lemma obj_upd_Forall {V} (Q : string * V -> Prop) (o : Obj V) k dflt f :
  Forall Q o ->
  (forall v, In (k, v) o -> Q (k, f v)) ->
  Q (k, f dflt) ->
  Forall Q (obj_upd o k dflt f).
Proof.
  intros Ho Hf Hd. induction o as [|[k' v'] o IH]; simpl.
  - constructor; [assumption|constructor].
  - inversion Ho as [|? ? Hhd Htl]; subst.
    destruct (String.eqb k' k) eqn:E.
    + apply String.eqb_eq in E; subst k'.
      constructor; [|assumption]. apply Hf. now left.
    + constructor; [assumption|].
      apply IH; [assumption|]. intros v Hin. apply Hf. now right.
Qed.



End Totals.



(** Without the hypothesis the two totals part: two records of A for X-Y add
    up in [totalIncentive], and only the last one stays in the map. *)
Example repeated_records_totals_differ :
  TS.getIncentivizedPairs Scenario.repeated
  = Ok [ {| pair_token1 := "X"; pair_token2 := "Y";
            totalIncentive := 0.75%float;
            addressIncentives := [("A", 0.25%float)]%string |} ]
  /\ (exists d, TS.getPairIncentiveDetails Scenario.repeated "X" "Y" = Ok d
                /\ totalIncentive (details_pair d) = 0.25%float).
Proof. split; [|eexists; split]; vm_compute; reflexivity. Qed.

(** ** [getIncentivizedPairs]: addresses without an ownership record *)

Section Unowned.
Context {N : Type} `{Number N}.
Variable this : LiquidityManagerState N.
Variable address : string.


End Unowned.

(** ** [getPairIncentiveDetails] *)

Section Details.
Context {N : Type} `{Number N}.

(** Each per-address map of the table of [index.ts] holds an address once. *)
Lemma ts_incentive_table_maps_NoDup (this : LiquidityManagerState N) :
  Forall (fun e => NoDup (obj_keys (addressIncentives (snd e))))
         (TS.incentive_table this).
Proof.
  unfold TS.incentive_table.
  assert (Hgen : forall entries table,
             Forall (fun e => NoDup (obj_keys (addressIncentives (snd e)))) table ->
             Forall (fun e => NoDup (obj_keys (addressIncentives (snd e))))
                    (fold_left (TS.add_address this) entries table)).
  { induction entries as [|[a prefs] entries IH]; intros table Htable; [exact Htable|].
    simpl. apply IH.
    destruct (obj_get (addyOwnership this) a) as [ownership|]; [|exact Htable].
    clear IH. revert table Htable.
    induction prefs as [|p prefs IHp]; intros table Htable; [exact Htable|].
    simpl. apply IHp. unfold TS.add_incentive. apply obj_upd_Forall.
    - exact Htable.
    - intros v Hin. rewrite Forall_forall in Htable. simpl.
      apply obj_set_NoDup. apply (Htable _ Hin).
    - simpl. repeat constructor. simpl. tauto. }
  apply Hgen. constructor.
Qed.

(** Writing [g] of every value of a dictionary into another one, key by key. *)
Lemma fold_obj_set_get (g : N -> N) (o : Obj N) :
  NoDup (obj_keys o) ->
  forall acc a,
    obj_get (fold_left (fun acc '(address, incentive) =>
                          obj_set acc address (g incentive)) o acc) a
    = match obj_get o a with
      | Some c => Some (g c)
      | None => obj_get acc a
      end.
Proof.
  induction o as [|[k v] o IH]; intros Hnd acc a; [reflexivity|].
  simpl in Hnd. inversion Hnd as [|? ? Hk Hnd']; subst.
  simpl. rewrite IH by assumption.
  destruct (String.eqb k a) eqn:E.
  - apply String.eqb_eq in E; subst a.
    apply obj_get_None_keys in Hk. rewrite Hk. apply obj_get_set_same.
  - apply String.eqb_neq in E.
    destruct (obj_get o a); [reflexivity|]. now apply obj_get_set_other.
Qed.
End Details.

(** C9 (amended).  [getPairIncentiveDetails] fails, with 'Pair not found' in
    [index.ts] and 'Token pair not found in incentives' in [index.js], when
    [getIncentivizedPairs] has no pair for the two tokens.  When [index.ts]
    succeeds it reports that pair with [totalIncentive] recomputed as the sum
    of the per-address contributions and, that total not being 0, for every
    contributing address the normalised contribution
    [contribution / totalIncentive].  When [index.js] succeeds it returns the
    pair entry as it is, without normalised contributions. *)
Theorem pair_details
    {N : Type} `{Number N} (this : LiquidityManagerState N) (t1 t2 : string) :
  (forall pairs, TS.getIncentivizedPairs this = Ok pairs ->
     ((forall pair, In pair pairs -> carries t1 t2 pair = false) ->
      TS.getPairIncentiveDetails this t1 t2 = Err "Pair not found")
     /\ (forall d, TS.getPairIncentiveDetails this t1 t2 = Ok d ->
         (exists found, In found pairs /\ carries t1 t2 found = true
            /\ pair_token1 (details_pair d) = pair_token1 found
            /\ pair_token2 (details_pair d) = pair_token2 found
            /\ addressIncentives (details_pair d) = addressIncentives found)
         /\ totalIncentive (details_pair d)
            = sum (obj_values (addressIncentives (details_pair d)))
         /\ (n_eq (totalIncentive (details_pair d)) n_zero = false ->
             forall a c,
               obj_get (addressIncentives (details_pair d)) a = Some c ->
               obj_get (normalizedIncentives d) a
               = Some (n_div c (totalIncentive (details_pair d))))))
  /\ (forall table, JS.getIncentivizedPairs this = Ok table ->
        let key := pair_key (fst (sort2 t1 t2)) (snd (sort2 t1 t2)) in
        (obj_get table key = None ->
         JS.getPairIncentiveDetails this t1 t2
         = Err "Token pair not found in incentives")
        /\ (forall found, obj_get table key = Some found ->
            JS.getPairIncentiveDetails this t1 t2 = Ok found)).
Proof.
  split.
  - intros pairs [= <-]. unfold TS.getPairIncentiveDetails, TS.getIncentivizedPairs.
    fold (@carries N t1 t2). split.
    + intro Hnone.
      destruct (find _ _) as [found|] eqn:Hfind; [|reflexivity].
      apply find_some in Hfind. destruct Hfind as [Hin Hc].
      rewrite (Hnone _ Hin) in Hc. discriminate.
    + intro d. destruct (find _ _) as [found|] eqn:Hfind; [|discriminate].
      intros [= <-]. simpl.
      apply find_some in Hfind. destruct Hfind as [Hin Hc].
      split; [exists found; auto|]. split; [reflexivity|].
      intros _ a c Hget.
      assert (Hnd : NoDup (obj_keys (addressIncentives found))).
      { unfold obj_values in Hin. apply in_map_iff in Hin.
        destruct Hin as (e & <- & Hin).
        pose proof (ts_incentive_table_maps_NoDup this) as Hall.
        rewrite Forall_forall in Hall. now apply Hall. }
      pose proof (@fold_obj_set_get _
                    (fun c => n_div c (sum (obj_values (addressIncentives found))))
                    _ Hnd [] a) as Hfold.
      cbv beta in Hfold. rewrite Hfold, Hget. reflexivity.
  - intros table [= <-]. unfold JS.getPairIncentiveDetails, JS.getIncentivizedPairs.
    destruct (sort2 t1 t2) as [s1 s2]. simpl.
    split; [intros ->; reflexivity|intros found ->; reflexivity].
Qed.

Lemma pair_details_witness :
  (exists d, TS.getPairIncentiveDetails Scenario.ledger "Y" "X" = Ok d
     /\ totalIncentive (details_pair d) = 0.62%float
     /\ obj_get (normalizedIncentives d) "A" = Some (0.42 / 0.62)%float)
  /\ TS.getPairIncentiveDetails Scenario.ledger "X" "Z" = Err "Pair not found"
  /\ JS.getPairIncentiveDetails Scenario.ledger "X" "Z"
     = Err "Token pair not found in incentives".
Proof.
  destruct (pair_details Scenario.ledger "Y" "X") as [Hts _].
  destruct (Hts _ eq_refl) as [_ Hok].
  destruct (TS.getPairIncentiveDetails Scenario.ledger "Y" "X") as [d|] eqn:Hd;
    [|discriminate].
  destruct (Hok d eq_refl) as (_ & Ht & Hn).
  destruct (pair_details Scenario.ledger "X" "Z") as [Hts' Hjs'].
  destruct (Hts' _ eq_refl) as [Hnone _].
  destruct (Hjs' _ eq_refl) as [Hnone' _].
  split; [|split].
  - exists d. split; [reflexivity|].
    injection Hd as <-. split; [reflexivity|]. apply Hn; reflexivity.
  - apply Hnone. intros pair [<-|[]]. reflexivity.
  - apply Hnone'. reflexivity.
Defined.

(** ** [normalizeLiquidityWeights]: what is returned *)

(** C2 (amended).  For an address with the stored list [prefs], whose weights
    add up (from 0, left to right) to [total]: [index.ts], when [total] is
    not 0, returns the records with every weight divided by [total] and
    leaves the state as it is; [index.js], when the test
    [Math.abs(total - 1.0) > 0.001] holds, returns and stores those same
    records, and when it fails ([total] within 0.001 of 1, or [NaN]) returns
    the stored list untouched.  Tokens and order are kept.  Nothing more is
    done to make the returned weights add up to 1: their sum is the sum of
    the rounded quotients. *)
Theorem normalized_weights_sum
    {N : Type} `{Number N} (this : LiquidityManagerState N) (address : string)
    (prefs : list (LiquidityPreference N)) :
  obj_get (signedTxs this) address = Some prefs ->
  let total := sum (map weight prefs) in
  (n_eq total n_zero = false ->
   TS.normalizeLiquidityWeights this address = Ok (rescaled total prefs))
  /\ (~ within_band total ->
      JS.normalizeLiquidityWeights this address
      = ({| signedTxs := obj_set (signedTxs this) address (rescaled total prefs);
            addyOwnership := addyOwnership this |},
         Ok (rescaled total prefs)))
  /\ (within_band total ->
      JS.normalizeLiquidityWeights this address = (this, Ok prefs))
  /\ map ordered_tokens (rescaled total prefs) = map ordered_tokens prefs
  /\ sum (map weight (rescaled total prefs))
     = sum (map (fun w => n_div w total) (map weight prefs)).
Proof.
  intros Hget total. split; [|split; [|split; [|split]]].
  - intro Hz. unfold TS.normalizeLiquidityWeights. rewrite Hget.
    fold total. now rewrite Hz.
  - intro Hoff. unfold JS.normalizeLiquidityWeights, within_band in *.
    rewrite Hget. fold total.
    destruct (n_gt (n_abs (n_sub total n_one)) n_milli); [reflexivity|].
    now contradiction Hoff.
  - intro Hin. unfold JS.normalizeLiquidityWeights, within_band in *.
    rewrite Hget. fold total. now rewrite Hin.
  - unfold rescaled. rewrite map_map. reflexivity.
  - unfold rescaled. now rewrite !map_map.
Qed.

Lemma normalized_weights_sum_witness :
  TS.normalizeLiquidityWeights Scenario.ledger "A"
  = Ok [Scenario.pref "X" "Y" 1%float]
  /\ JS.normalizeLiquidityWeights Scenario.ledger "A"
     = ({| signedTxs := [ ("A", [Scenario.pref "X" "Y" 1%float]);
                          ("B", [Scenario.pref "X" "Y" 0.5%float]) ]%string;
           addyOwnership := addyOwnership Scenario.ledger |},
        Ok [Scenario.pref "X" "Y" 1%float]).
Proof.
  destruct (@normalized_weights_sum _ _ Scenario.ledger "A"
              [Scenario.pref "X" "Y" 0.7%float] eq_refl)
    as (Hts & Hjs & _).
  split.
  - apply Hts. reflexivity.
  - apply Hjs. discriminate.
Defined.

(** On binary64 the quotients need not add up to 1 within 1e-9: the weights
    1e16, 5.1 and -1e16 have the sum 6, and the weights returned for them
    add up to 0.75. *)
Example cancelling_weights_normalized :
  n_eq (sum (map weight [Scenario.pref "X" "Y" 1e16; Scenario.pref "P" "Q" 5.1;
                         Scenario.pref "R" "S" (-1e16)])) 6%float = true
  /\ (exists out,
        TS.normalizeLiquidityWeights Scenario.cancelling "A" = Ok out
        /\ sum (map weight out) = 0.75%float)
  /\ (exists out,
        snd (JS.normalizeLiquidityWeights Scenario.cancelling "A") = Ok out
        /\ sum (map weight out) = 0.75%float).
Proof. split; [|split; eexists; split]; vm_compute; reflexivity. Qed.

(** ** [getTopIncentivizedPairs] *)

Section Sorting.
Context {A N : Type} `{Number N}.
Variable cmp : A -> A -> N.
Variable P : A -> Prop.
Variable before : A -> A -> Prop.
Hypothesis before_gt :
  forall x y, P x -> P y -> n_gt (cmp x y) n_zero = true -> before y x.
Hypothesis before_le :
  forall x y, P x -> P y -> n_gt (cmp x y) n_zero = false -> before x y.
Hypothesis before_trans :
  forall x y z, P x -> P y -> P z -> before x y -> before y z -> before x z.

Lemma sort_insert_perm x l : Permutation (x :: l) (sort_insert cmp x l).
Proof.
  induction l as [|y l IH]; simpl; [reflexivity|].
  destruct (n_gt (cmp x y) n_zero); [|reflexivity].
  rewrite perm_swap. now apply perm_skip.
Qed.

Lemma array_sort_perm l : Permutation l (array_sort cmp l).
Proof.
  induction l as [|x l IH]; simpl; [reflexivity|].
  rewrite <- sort_insert_perm. now apply perm_skip.
Qed.

Lemma sort_insert_sorted x l :
  P x -> Forall P l -> StronglySorted before l ->
  StronglySorted before (sort_insert cmp x l).
Proof.
  intros Hx Hl Hs. induction l as [|y l IH]; simpl.
  - repeat constructor.
  - inversion Hl as [|? ? Hy Hl']; subst.
    inversion Hs as [|? ? Hs' Hyl]; subst.
    destruct (n_gt (cmp x y) n_zero) eqn:E.
    + constructor; [now apply IH|].
      eapply Permutation_Forall; [apply sort_insert_perm|].
      constructor; [now apply before_gt|assumption].
    + constructor; [assumption|].
      assert (Hxy : before x y) by now apply before_le.
      constructor; [assumption|].
      rewrite Forall_forall in *. intros z Hz.
      apply (before_trans Hx Hy (Hl' z Hz) Hxy). now apply Hyl.
Qed.

Lemma array_sort_sorted l : Forall P l -> StronglySorted before (array_sort cmp l).
Proof.
  induction 1 as [|x l Hx Hl IH]; simpl; [constructor|].
  apply sort_insert_sorted; [assumption| |assumption].
  eapply Permutation_Forall; [apply array_sort_perm|assumption].
Qed.
End Sorting.

Lemma firstn_StronglySorted {A} (R : A -> A -> Prop) n l :
  StronglySorted R l -> StronglySorted R (firstn n l).
Proof.
  revert n. induction l as [|x l IH]; intros n Hs.
  - now rewrite firstn_nil.
  - destruct n as [|n]; simpl; [constructor|].
    inversion Hs as [|? ? Hs' Hx]; subst.
    constructor; [now apply IH|].
    rewrite Forall_forall in *. intros y Hy. apply Hx.
    rewrite <- (firstn_skipn n l). apply in_or_app. now left.
Qed.

Lemma slice0_length {A} (l : list A) (k : Z) :
  ((0 <= k)%Z -> List.length (slice0 l k) = Nat.min (Z.to_nat k) (List.length l))
  /\ ((k < 0)%Z -> List.length (slice0 l k) = (List.length l - Z.to_nat (- k))%nat).
Proof.
  unfold slice0. rewrite length_firstn.
  destruct (k <? 0)%Z eqn:E; [apply Z.ltb_lt in E|apply Z.ltb_ge in E];
    split; intro Hk; lia.
Qed.

Lemma slice0_firstn {A} (l : list A) (k : Z) :
  slice0 l k = firstn (List.length (slice0 l k)) l.
Proof.
  unfold slice0. rewrite length_firstn.
  set (n := Z.to_nat _). destruct (Nat.le_gt_cases n (List.length l)) as [Hn|Hn].
  - now rewrite Nat.min_l.
  - rewrite Nat.min_r by lia. rewrite firstn_all. apply firstn_all2. lia.
Qed.

Section Ranking.
Context {N : Type} `{Number N}.

(** Sorting pairs by [(a, b) => b.totalIncentive - a.totalIncentive] and
    cutting with [slice(0, k)]. *)
Lemma sort_and_slice (pairs : list (IncentivizedPair N)) (k : Z) :
  let sorted := array_sort (fun a b => n_sub (totalIncentive b) (totalIncentive a))
                           pairs in
  let top := slice0 sorted k in
  Permutation pairs sorted
  /\ top = firstn (List.length top) sorted
  /\ sliced k pairs top
  /\ (k = 0%Z -> top = [])
  /\ (ranked pairs -> in_descending_order sorted /\ in_descending_order top).
Proof.
  intros sorted top.
  set (cmp := fun a b : IncentivizedPair N =>
                n_sub (totalIncentive b) (totalIncentive a)) in *.
  pose proof (array_sort_perm cmp pairs) as Hperm. fold sorted in Hperm.
  pose proof (slice0_length sorted k) as [Hpos Hneg].
  rewrite <- (Permutation_length Hperm) in Hpos, Hneg.
  split; [exact Hperm|]. split; [apply slice0_firstn|].
  split; [split; assumption|]. split.
  - intros ->. apply length_zero_iff_nil. unfold top. rewrite Hpos by lia.
    reflexivity.
  - intros (Hcmp & Hasym & Htrans).
    assert (Hsorted : in_descending_order sorted).
    { apply (@array_sort_sorted _ _ _ cmp (fun p => In p pairs) not_below).
      - intros x y Hx Hy Hgt. unfold cmp in Hgt.
        rewrite (Hcmp x y Hx Hy) in Hgt. now apply Hasym.
      - intros x y Hx Hy Hle. unfold cmp in Hle.
        rewrite (Hcmp x y Hx Hy) in Hle. exact Hle.
      - intros x y z Hx Hy Hz. now apply Htrans.
      - apply Forall_forall. auto. }
    split; [exact Hsorted|]. now apply firstn_StronglySorted.
Qed.
End Ranking.

(** C3 (amended).  For every ledger and every integer [k],
    [getTopIncentivizedPairs(k)] of both implementations returns, without
    error, the pairs of [getIncentivizedPairs] sorted by the comparator
    [b.totalIncentive - a.totalIncentive] and cut by [slice(0, k)]: the
    first [min(k, totalPairs)] of them for [k >= 0], so none for [k = 0];
    for [k < 0] all but the last [-k], which are [max(totalPairs + k, 0)]
    pairs and not none.  The sequence is in descending order of
    [totalIncentive], no pair being below a later one, when the comparator
    ranks the totals: when its result is positive exactly for a lower
    against a higher total and the totals are ordered by [<], which a [NaN]
    among them undoes. *)
Theorem top_pairs_sorted_and_cut
    {N : Type} `{Number N} (this : LiquidityManagerState N) (k : Z) :
  (exists pairs top,
      TS.getIncentivizedPairs this = Ok pairs
      /\ TS.getTopIncentivizedPairs this (Some k) = Ok top
      /\ sliced k pairs top /\ (k = 0%Z -> top = [])
      /\ (exists sorted, Permutation pairs sorted
                         /\ top = firstn (List.length top) sorted
                         /\ (ranked pairs -> in_descending_order sorted))
      /\ (ranked pairs -> in_descending_order top))
  /\ (exists table top,
         JS.getIncentivizedPairs this = Ok table
         /\ JS.getTopIncentivizedPairs this (Some k) = Ok top
         /\ sliced k (obj_values table) top /\ (k = 0%Z -> top = [])
         /\ (exists sorted, Permutation (obj_values table) sorted
                            /\ top = firstn (List.length top) sorted
                            /\ (ranked (obj_values table) ->
                                in_descending_order sorted))
         /\ (ranked (obj_values table) -> in_descending_order top)).
Proof.
  split.
  - do 2 eexists. split; [reflexivity|]. split; [reflexivity|].
    destruct (sort_and_slice (obj_values (TS.incentive_table this)) k)
      as (Hperm & Hfirst & Hcut & Hzero & Hsorted).
    split; [exact Hcut|]. split; [exact Hzero|]. split.
    + eexists. split; [exact Hperm|]. split; [exact Hfirst|].
      intro Hr. apply (Hsorted Hr).
    + intro Hr. apply (Hsorted Hr).
  - do 2 eexists. split; [reflexivity|]. split; [reflexivity|].
    destruct (sort_and_slice
                (obj_values (fold_left (JS.add_address this) (signedTxs this) [])) k)
      as (Hperm & Hfirst & Hcut & Hzero & Hsorted).
    split; [exact Hcut|]. split; [exact Hzero|]. split.
    + eexists. split; [exact Hperm|]. split; [exact Hfirst|].
      intro Hr. apply (Hsorted Hr).
    + intro Hr. apply (Hsorted Hr).
Qed.

(** Finite weights and voting powers can give a [NaN] total, and such totals
    are not ranked by the comparator: 1 is not below [NaN] and [NaN] is not
    below 2. *)
Example nan_total_not_ranked :
  let p1 := {| pair_token1 := "X"; pair_token2 := "Y";
               totalIncentive := 1%float;
               addressIncentives := [("A", 1%float)]%string |} in
  let p2 := {| pair_token1 := "P"; pair_token2 := "Q";
               totalIncentive := nan;
               addressIncentives :=
                 [("B", infinity); ("C", neg_infinity)]%string |} in
  let p3 := {| pair_token1 := "R"; pair_token2 := "S";
               totalIncentive := 2%float;
               addressIncentives := [("D", 2%float)]%string |} in
  TS.getIncentivizedPairs Scenario.clashing = Ok [p1; p2; p3]
  /\ ~ ranked [p1; p2; p3].
Proof.
  intros p1 p2 p3. split; [vm_compute; reflexivity|].
  intros (_ & _ & Htrans).
  specialize (Htrans p1 p2 p3 (or_introl eq_refl)
                     (or_intror (or_introl eq_refl))
                     (or_intror (or_intror (or_introl eq_refl)))
                     eq_refl eq_refl).
  vm_compute in Htrans. discriminate Htrans.
Qed.

Lemma top_pairs_sorted_and_cut_witness :
  (exists pairs, TS.getIncentivizedPairs Scenario.two_pairs = Ok pairs
                 /\ ranked pairs)
  /\ (exists top,
        TS.getTopIncentivizedPairs Scenario.two_pairs (Some 5%Z) = Ok top
        /\ in_descending_order top /\ List.length top = 2%nat)
  /\ (exists top,
        JS.getTopIncentivizedPairs Scenario.two_pairs (Some 0%Z) = Ok top
        /\ top = []).
Proof.
  assert (Hr : ranked
                 [ {| pair_token1 := "X"; pair_token2 := "Y";
                      totalIncentive := 0.42%float;
                      addressIncentives := [("A", 0.42%float)]%string |};
                   {| pair_token1 := "P"; pair_token2 := "Q";
                      totalIncentive := 0.2%float;
                      addressIncentives := [("B", 0.2%float)]%string |} ]%string).
  { split; [|split].
    - intros a b [<-|[<-|[]]] [<-|[<-|[]]]; reflexivity.
    - intros a b [<-|[<-|[]]] [<-|[<-|[]]]; vm_compute; congruence.
    - intros a b c [<-|[<-|[]]] [<-|[<-|[]]] [<-|[<-|[]]]; vm_compute; congruence. }
  split; [eexists; split; [reflexivity|exact Hr]|]. split.
  - destruct (top_pairs_sorted_and_cut Scenario.two_pairs 5)
      as [(pairs & top & Hp & Ht & (Hpos & _) & _ & _ & Hd) _].
    exists top. split; [exact Ht|].
    injection Hp as <-. split; [apply Hd; exact Hr|].
    rewrite Hpos by lia. reflexivity.
  - destruct (top_pairs_sorted_and_cut Scenario.two_pairs 0)
      as [_ (table & top & _ & Ht & _ & Hnil & _)].
    exists top. split; [exact Ht|]. now apply Hnil.
Defined.

(** ** [recalculateVotingPower] *)

Section TsRecalculate.
Context {N : Type} `{Number N}.

Lemma ts_recalculate_percentages (this : LiquidityManagerState N) :
  map percentage (obj_values (addyOwnership (TS.recalculateVotingPower this)))
  = map percentage (obj_values (addyOwnership this)).
Proof.
  unfold TS.recalculateVotingPower.
  destruct (n_eq _ n_zero); [reflexivity|]. simpl.
  unfold obj_values. rewrite !map_map. apply map_ext. now intros [a o].
Qed.

Lemma ts_recalculate_idempotent (this : LiquidityManagerState N) :
  TS.recalculateVotingPower (TS.recalculateVotingPower this)
  = TS.recalculateVotingPower this.
Proof.
  unfold TS.recalculateVotingPower at 1.
  rewrite ts_recalculate_percentages.
  destruct (n_eq (sum (map percentage (obj_values (addyOwnership this)))) n_zero)
    eqn:E; [reflexivity|].
  unfold TS.recalculateVotingPower. rewrite E. simpl.
  f_equal. rewrite map_map. apply map_ext. now intros [a o].
Qed.
End TsRecalculate.

Section JsRecalculate.
Context {N : Type} `{Number N}.

Lemma js_recalculate_cases (this : LiquidityManagerState N) :
  (within_band (total_percentage this) ->
   JS.recalculateVotingPower this = (this, Ok (addyOwnership this)))
  /\ (~ within_band (total_percentage this) ->
      JS.recalculateVotingPower this
      = ({| signedTxs := signedTxs this;
            addyOwnership := reshared (total_percentage this) (addyOwnership this) |},
         Ok (reshared (total_percentage this) (addyOwnership this)))).
Proof.
  unfold JS.recalculateVotingPower, within_band, total_percentage, reshared.
  destruct (n_gt _ n_milli); split; intro Hb;
    solve [reflexivity|discriminate|now contradiction Hb].
Qed.

Lemma js_recalculate_result (this : LiquidityManagerState N) :
  snd (JS.recalculateVotingPower this)
  = Ok (addyOwnership (fst (JS.recalculateVotingPower this))).
Proof.
  unfold JS.recalculateVotingPower. now destruct (n_gt _ n_milli).
Qed.
End JsRecalculate.

(** C6 (amended).  [recalculateVotingPower] of [index.ts], which only
    rewrites [voting_power], is idempotent for every ledger.  That of
    [index.js] tests [Math.abs(total - 1.0) > 0.001] on the sum of the
    percentages: when the test fails (a sum within 0.001 of 1, or [NaN]) it
    leaves the ledger as it is, and when it holds it divides every
    percentage by the sum and sets every voting power to the new
    percentage.  A second call in a row returns and leaves what the first
    did whenever the test fails on the percentages that the first call
    left, and divides them again when it holds. *)
Theorem recalculateVotingPower_idempotent
    {N : Type} `{Number N} (this : LiquidityManagerState N) :
  TS.recalculateVotingPower (TS.recalculateVotingPower this)
  = TS.recalculateVotingPower this
  /\ (within_band (total_percentage this) ->
      JS.recalculateVotingPower this = (this, Ok (addyOwnership this)))
  /\ (~ within_band (total_percentage this) ->
      fst (JS.recalculateVotingPower this)
      = {| signedTxs := signedTxs this;
           addyOwnership := reshared (total_percentage this) (addyOwnership this) |})
  /\ (let once := fst (JS.recalculateVotingPower this) in
      (within_band (total_percentage once) ->
       JS.recalculateVotingPower once = JS.recalculateVotingPower this)
      /\ (~ within_band (total_percentage once) ->
          addyOwnership (fst (JS.recalculateVotingPower once))
          = reshared (total_percentage once) (addyOwnership once))).
Proof.
  split; [apply ts_recalculate_idempotent|].
  destruct (js_recalculate_cases this) as [Hin Hoff].
  split; [exact Hin|]. split; [intro Hb; now rewrite (Hoff Hb)|].
  intro once. destruct (js_recalculate_cases once) as [Hin1 Hoff1]. split.
  - intro Hb. rewrite (Hin1 Hb).
    rewrite (surjective_pairing (JS.recalculateVotingPower this)).
    fold once. now rewrite js_recalculate_result.
  - intro Hb. now rewrite (Hoff1 Hb).
Qed.

(** The same test on binary64, for both implementations. *)
Example over_owned_recalculated_binary64 :
  let once := fst (JS.recalculateVotingPower Scenario.over_owned64) in
  addyOwnership once
  = [ ("add1", Scenario.owns 0.5 600000 0.5);
      ("add2", Scenario.owns 0.5 600000 0.5) ]%string%float
  /\ fst (JS.recalculateVotingPower once) = once
  /\ TS.recalculateVotingPower Scenario.over_owned64
     = {| signedTxs := [];
          addyOwnership := [ ("add1", Scenario.owns 0.6 600000 0.5);
                             ("add2", Scenario.owns 0.6 600000 0.5) ]%string%float |}.
Proof. repeat split. Qed.

(** A total of 0 on binary64: [index.ts] returns at once; [index.js] divides
    by the total, every percentage becomes [NaN], and the next call, whose
    total is [NaN], changes nothing. *)
Example zero_total_recalculated_binary64 :
  let once := fst (JS.recalculateVotingPower Scenario.unstaked64) in
  TS.recalculateVotingPower Scenario.unstaked64 = Scenario.unstaked64
  /\ addyOwnership once
     = [ ("add1", Scenario.owns nan 0 nan);
         ("add2", Scenario.owns nan 0 nan) ]%string%float
  /\ fst (JS.recalculateVotingPower once) = once.
Proof. repeat split. Qed.

(** * Further properties of the two implementations *)

(** ** Arrays: [findIndex], in-place update, [find] *)

Section ArrayFacts.
Context {A : Type}.
Implicit Types (p q : A -> bool) (l : list A).

Lemma findIndex_Some_split p l i :
  findIndex p l = Some i ->
  exists l1 x l2, l = l1 ++ x :: l2 /\ List.length l1 = i /\ p x = true
                  /\ Forall (fun y => p y = false) l1.
Proof.
  revert i. induction l as [|y l IH]; intros i Hi; [discriminate|].
  simpl in Hi. destruct (p y) eqn:Ey.
  - injection Hi as <-. exists [], y, l. repeat split; auto.
  - destruct (findIndex p l) as [j|]; [|discriminate].
    injection Hi as <-. destruct (IH j eq_refl) as (l1 & x & l2 & -> & <- & Hx & Hl1).
    exists (y :: l1), x, l2. repeat split; auto.
Qed.

Lemma findIndex_None_Forall p l :
  findIndex p l = None -> Forall (fun y => p y = false) l.
Proof.
  induction l as [|y l IH]; intro Hn; [constructor|].
  simpl in Hn. destruct (p y) eqn:Ey; [discriminate|].
  destruct (findIndex p l); [discriminate|]. constructor; auto.
Qed.

Lemma findIndex_app_hit p l1 x l2 :
  Forall (fun y => p y = false) l1 -> p x = true ->
  findIndex p (l1 ++ x :: l2) = Some (List.length l1).
Proof.
  intros Hl1 Hx. induction Hl1 as [|y l1 Hy _ IH]; simpl.
  - now rewrite Hx.
  - now rewrite Hy, IH.
Qed.

Lemma findIndex_app_miss p l x :
  Forall (fun y => p y = false) l -> p x = true ->
  findIndex p (l ++ [x]) = Some (List.length l).
Proof. apply findIndex_app_hit. Qed.

Lemma update_at_app (f : A -> A) l1 x l2 :
  update_at (List.length l1) f (l1 ++ x :: l2) = l1 ++ f x :: l2.
Proof. induction l1 as [|y l1 IH]; simpl; [reflexivity|now rewrite IH]. Qed.



End ArrayFacts.

Section ObjMoreFacts.
Context {V : Type}.
Implicit Types (o : Obj V) (k : string) (v : V).

Lemma obj_set_set o k v v' : obj_set (obj_set o k v) k v' = obj_set o k v'.
Proof.
  induction o as [|[k' v0] o IH]; simpl.
  - now rewrite String.eqb_refl.
  - destruct (String.eqb k' k) eqn:E; simpl; rewrite E; [reflexivity|now rewrite IH].
Qed.

Lemma obj_set_same o k v : obj_get o k = Some v -> obj_set o k v = o.
Proof.
  induction o as [|[k' v0] o IH]; simpl; [discriminate|].
  destruct (String.eqb k' k) eqn:E.
  - now intros [= ->].
  - intro Hg. now rewrite IH.
Qed.

Lemma obj_upd_const o k dflt v : obj_upd o k dflt (fun _ => v) = obj_set o k v.
Proof.
  induction o as [|[k' v0] o IH]; simpl; [reflexivity|].
  destruct (String.eqb k' k); [reflexivity|now rewrite IH].
Qed.
End ObjMoreFacts.

(** ** [addLiquidityPreference] of [index.ts] *)

Section TsUpsert.
Context {N : Type}.
Implicit Types (l : list (LiquidityPreference N)) (w : N).

Lemma same_tokens_spec t1 t2 (x : LiquidityPreference N) :
  same_tokens t1 t2 x = true <-> ordered_tokens x = (t1, t2).
Proof.
  unfold same_tokens, ordered_tokens.
  rewrite andb_true_iff, !String.eqb_eq. split.
  - now intros [-> ->].
  - now intros [= -> ->].
Qed.


Lemma ts_upsert_cases t1 t2 w l :
  (exists l1 x l2,
      l = l1 ++ x :: l2
      /\ Forall (fun y => same_tokens t1 t2 y = false) l1
      /\ ordered_tokens x = (t1, t2)
      /\ ts_upsert t1 t2 w l
         = l1 ++ {| token1 := t1; token2 := t2; weight := w |} :: l2)
  \/ (Forall (fun y => same_tokens t1 t2 y = false) l
      /\ ts_upsert t1 t2 w l = l ++ [{| token1 := t1; token2 := t2; weight := w |}]).
Proof.
  unfold ts_upsert. destruct (findIndex (same_tokens t1 t2) l) as [i|] eqn:E.
  - left. apply findIndex_Some_split in E.
    destruct E as (l1 & x & l2 & -> & <- & Hx & Hl1).
    apply same_tokens_spec in Hx. exists l1, x, l2. repeat split; auto.
    rewrite update_at_app. injection Hx as -> ->. reflexivity.
  - right. split; [now apply findIndex_None_Forall|reflexivity].
Qed.



Lemma ts_upsert_twice t1 t2 w1 w2 l :
  ts_upsert t1 t2 w2 (ts_upsert t1 t2 w1 l) = ts_upsert t1 t2 w2 l.
Proof.
  assert (Hnew : forall w, same_tokens t1 t2
                             {| token1 := t1; token2 := t2; weight := w |} = true)
    by (intro w; now apply same_tokens_spec).
  destruct (ts_upsert_cases t1 t2 w1 l)
    as [(l1 & x & l2 & -> & Hl1 & Hx & ->)|[Hl ->]].
  - assert (Hx' : same_tokens t1 t2 x = true) by now apply same_tokens_spec.
    unfold ts_upsert.
    rewrite (@findIndex_app_hit _ _ l1 _ l2 Hl1 (Hnew w1)), update_at_app.
    rewrite (@findIndex_app_hit _ _ l1 x l2 Hl1 Hx'), update_at_app.
    injection Hx as -> ->. reflexivity.
  - unfold ts_upsert at 1.
    rewrite (@findIndex_app_hit _ _ l _ [] Hl (Hnew w1)), update_at_app. simpl.
    unfold ts_upsert.
    destruct (findIndex (same_tokens t1 t2) l) as [i|] eqn:E; [|reflexivity].
    apply findIndex_Some_split in E.
    destruct E as (l1 & x & l2 & -> & _ & Hx & _).
    rewrite Forall_forall in Hl. rewrite Hl in Hx; [discriminate|].
    apply in_or_app. right. now left.
Qed.


End TsUpsert.

Lemma ts_addLiquidityPreference_unfold
    {N : Type} `{Number N} (this : LiquidityManagerState N)
    (address t1 t2 : string) (w : N) :
  TS.addLiquidityPreference this address t1 t2 w
  = match obj_get (addyOwnership this) address with
    | None => (this, Err "Address not found in ownership data")
    | Some _ =>
        ({| signedTxs := obj_set (signedTxs this) address
                                 (ts_upsert t1 t2 w (prefs_of this address));
            addyOwnership := addyOwnership this |}, Ok tt)
    end.
Proof. reflexivity. Qed.


(** X1.  For an address that is neither the name of a member that objects
    inherit from [Object.prototype] nor a string of digits,
    [addLiquidityPreference] of [index.ts]
    fails, with 'Address not found in ownership data', exactly when the
    address has no ownership record, and then changes nothing; when it
    succeeds it leaves the ownership table and the preference lists of all
    other addresses as they were. *)
Theorem ts_addLiquidityPreference_frame
    {N : Type} `{Number N} (this : LiquidityManagerState N)
    (address t1 t2 : string) (w : N) :
  plain_key address ->
  (snd (TS.addLiquidityPreference this address t1 t2 w)
     = Err "Address not found in ownership data"
   <-> obj_get (addyOwnership this) address = None)
  /\ (snd (TS.addLiquidityPreference this address t1 t2 w) = Ok tt
      \/ fst (TS.addLiquidityPreference this address t1 t2 w) = this)
  /\ addyOwnership (fst (TS.addLiquidityPreference this address t1 t2 w))
     = addyOwnership this
  /\ (forall a, a <> address ->
        obj_get (signedTxs (fst (TS.addLiquidityPreference this address t1 t2 w))) a
        = obj_get (signedTxs this) a).
Proof.
  intros _. rewrite ts_addLiquidityPreference_unfold.
  destruct (obj_get (addyOwnership this) address) as [o|]; simpl.
  - split; [split; discriminate|]. split; [now left|]. split; [reflexivity|].
    intros a Ha. apply obj_get_set_other. congruence.
  - split; [split; reflexivity|]. split; [now right|]. split; reflexivity.
Qed.

Lemma ts_addLiquidityPreference_frame_witness :
  plain_key "A"
  /\ snd (TS.addLiquidityPreference Scenario.unowned "A" "X" "Y" 0.5%float)
     = Err "Address not found in ownership data"
  /\ fst (TS.addLiquidityPreference Scenario.unowned "A" "X" "Y" 0.5%float)
     = Scenario.unowned.
Proof.
  assert (Hplain : plain_key "A").
  { split; [|reflexivity]. unfold inherited_names. simpl. intuition discriminate. }
  destruct (@ts_addLiquidityPreference_frame _ _ Scenario.unowned "A" "X" "Y"
              0.5%float Hplain) as (Hfail & [Hok|Hsame] & _).
  - split; [exact Hplain|]. split; [now apply Hfail|]. discriminate Hok.
  - split; [exact Hplain|]. split; [now apply Hfail|exact Hsame].
Defined.



(** X3.  In [index.ts] a weight is overwritten, not added: two
    [addLiquidityPreference] calls in a row for the same address and the
    same ordered tokens leave the state and return the result of the second
    call alone. *)
Theorem ts_addLiquidityPreference_overwrites
    {N : Type} `{Number N} (this : LiquidityManagerState N)
    (address t1 t2 : string) (w1 w2 : N) :
  TS.addLiquidityPreference
    (fst (TS.addLiquidityPreference this address t1 t2 w1)) address t1 t2 w2
  = TS.addLiquidityPreference this address t1 t2 w2.
Proof.
  rewrite (ts_addLiquidityPreference_unfold this address t1 t2 w1).
  destruct (obj_get (addyOwnership this) address) as [o|] eqn:Eo; cbn [fst];
    [|reflexivity].
  rewrite !ts_addLiquidityPreference_unfold. cbn [addyOwnership signedTxs].
  rewrite Eo. unfold prefs_of. cbn [signedTxs].
  rewrite obj_get_set_same, obj_set_set, ts_upsert_twice. reflexivity.
Qed.

(** ** [addLiquidityPreference] and [normalizeLiquidityWeights] of [index.js] *)

Lemma sort2_comm (a b : string) : sort2 a b = sort2 b a.
Proof.
  unfold sort2, String.ltb.
  rewrite (String.compare_antisym a b).
  destruct (String.compare b a) eqn:E; simpl; try reflexivity.
  apply String.compare_eq_iff in E. now subst.
Qed.

Lemma update_at_length {A} (f : A -> A) i (l : list A) :
  List.length (update_at i f l) = List.length l.
Proof.
  revert i. induction l as [|x l IH]; intro i; [now destruct i|].
  destruct i; simpl; [reflexivity|now rewrite IH].
Qed.

Section JsAdd.
Context {N : Type} `{Number N}.

Lemma js_upsert_nonempty s1 s2 (w : N) l : js_upsert s1 s2 w l <> [].
Proof.
  unfold js_upsert. destruct (findIndex (either_tokens s1 s2) l) as [i|] eqn:E.
  - apply findIndex_Some_split in E. destruct E as (l1 & x & l2 & -> & _).
    intro Hnil. apply (f_equal (@List.length _)) in Hnil.
    rewrite update_at_length, length_app in Hnil. simpl in Hnil. lia.
  - destruct l; discriminate.
Qed.

Lemma js_addLiquidityPreference_unfold
    (this : LiquidityManagerState N) (address t1 t2 : string) (w : N) :
  JS.addLiquidityPreference this address t1 t2 w
  = let this1 :=
        {| signedTxs :=
             obj_set (signedTxs this) address
                     (js_upsert (fst (sort2 t1 t2)) (snd (sort2 t1 t2)) w
                                (prefs_of this address));
           addyOwnership := addyOwnership this |} in
    let this2 := fst (JS.normalizeLiquidityWeights this1 address) in
    (this2, Ok (prefs_of this2 address)).
Proof.
  unfold JS.addLiquidityPreference. now destruct (sort2 t1 t2).
Qed.

Lemma js_normalize_frame (this : LiquidityManagerState N) (address : string) :
  addyOwnership (fst (JS.normalizeLiquidityWeights this address))
  = addyOwnership this
  /\ (forall a, a <> address ->
        obj_get (signedTxs (fst (JS.normalizeLiquidityWeights this address))) a
        = obj_get (signedTxs this) a)
  /\ map ordered_tokens (prefs_of (fst (JS.normalizeLiquidityWeights this address))
                                  address)
     = map ordered_tokens (prefs_of this address).
Proof.
  unfold JS.normalizeLiquidityWeights, prefs_of.
  destruct (obj_get (signedTxs this) address) as [l|] eqn:El; simpl.
  - destruct (n_gt _ n_milli); simpl.
    + split; [reflexivity|]. split.
      * intros a Ha. apply obj_get_set_other. congruence.
      * rewrite obj_get_set_same, map_map. reflexivity.
    + rewrite El. auto.
  - rewrite El. auto.
Qed.
End JsAdd.

(** X4.  [addLiquidityPreference] of [index.js] does not depend on the order
    in which the two tokens are given: the state it leaves and the list it
    returns are the same. *)
Theorem js_addLiquidityPreference_order_independent
    {N : Type} `{Number N} (this : LiquidityManagerState N)
    (address t1 t2 : string) (w : N) :
  JS.addLiquidityPreference this address t1 t2 w
  = JS.addLiquidityPreference this address t2 t1 w.
Proof.
  rewrite !js_addLiquidityPreference_unfold. now rewrite (sort2_comm t1 t2).
Qed.

(** X6.  [normalizeLiquidityWeights] of [index.js] rewrites weights and
    nothing else: for an address that is neither the name of a member that
    objects inherit from [Object.prototype] nor a string of digits, and
    whatever the numbers, a call leaves the ownership table, the lists of the other addresses, and the tokens and
    the order of the records of the address as they were, and what it
    returns on success is the list it leaves stored for the address. *)
Theorem js_normalize_touches_weights_only
    {N : Type} `{Number N} (this : LiquidityManagerState N) (address : string) :
  plain_key address ->
  addyOwnership (fst (JS.normalizeLiquidityWeights this address))
  = addyOwnership this
  /\ (forall a, a <> address ->
        obj_get (signedTxs (fst (JS.normalizeLiquidityWeights this address))) a
        = obj_get (signedTxs this) a)
  /\ map ordered_tokens (prefs_of (fst (JS.normalizeLiquidityWeights this address))
                                  address)
     = map ordered_tokens (prefs_of this address)
  /\ (forall out, snd (JS.normalizeLiquidityWeights this address) = Ok out ->
        obj_get (signedTxs (fst (JS.normalizeLiquidityWeights this address))) address
        = Some out).
Proof.
  intros _.
  destruct (js_normalize_frame this address) as (Hown & Hother & Htokens).
  split; [exact Hown|]. split; [exact Hother|]. split; [exact Htokens|].
  unfold JS.normalizeLiquidityWeights.
  destruct (obj_get (signedTxs this) address) as [l|] eqn:El; [|discriminate].
  destruct (n_gt _ n_milli); cbn [fst snd signedTxs]; intros out [= <-].
  - apply obj_get_set_same.
  - exact El.
Qed.

Lemma js_normalize_touches_weights_only_witness :
  plain_key "A"
  /\ addyOwnership (fst (JS.normalizeLiquidityWeights Scenario.cancelling "A"))
     = addyOwnership Scenario.cancelling
  /\ map ordered_tokens
         (prefs_of (fst (JS.normalizeLiquidityWeights Scenario.cancelling "A")) "A")
     = [ ("X", "Y"); ("P", "Q"); ("R", "S") ]%string.
Proof.
  assert (Hplain : plain_key "A").
  { split; [|reflexivity]. unfold inherited_names. simpl. intuition discriminate. }
  destruct (@js_normalize_touches_weights_only _ _ Scenario.cancelling "A" Hplain)
    as (Hown & _ & Htokens & _).
  split; [exact Hplain|]. split; [exact Hown|]. rewrite Htokens. reflexivity.
Defined.

(** ** [updateOwnership] and [recalculateVotingPower]: what is stored *)

Lemma obj_get_map_values {V W} (f : V -> W) (o : Obj V) (k : string) :
  obj_get (map (fun '(a, v) => (a, f v)) o) k = option_map f (obj_get o k).
Proof.
  induction o as [|[k' v] o IH]; simpl; [reflexivity|].
  destruct (String.eqb k' k); [reflexivity|exact IH].
Qed.


Section TsOwnership.
Context {N : Type} `{Number N}.

Lemma ts_recalculate_lookup (this : LiquidityManagerState N) a :
  match obj_get (addyOwnership this) a with
  | Some o =>
      exists vp, obj_get (addyOwnership (TS.recalculateVotingPower this)) a
                 = Some {| percentage := percentage o; tokens := tokens o;
                           voting_power := vp |}
  | None => obj_get (addyOwnership (TS.recalculateVotingPower this)) a = None
  end.
Proof.
  unfold TS.recalculateVotingPower.
  destruct (n_eq _ n_zero); cbn [addyOwnership].
  - destruct (obj_get (addyOwnership this) a) as [o|]; [|reflexivity].
    exists (voting_power o). now destruct o.
  - rewrite (obj_get_map_values
               (fun o => {| percentage := percentage o; tokens := tokens o;
                            voting_power := n_div (percentage o) _ |})).
    destruct (obj_get (addyOwnership this) a) as [o|]; [|reflexivity].
    eexists. reflexivity.
Qed.

Lemma ts_recalculate_signedTxs (this : LiquidityManagerState N) :
  signedTxs (TS.recalculateVotingPower this) = signedTxs this.
Proof. unfold TS.recalculateVotingPower. now destruct (n_eq _ n_zero). Qed.

End TsOwnership.

(** X8.  In [index.ts], after a successful [updateOwnership] the record of
    the address holds the percentage and the tokens that were given, every
    other owner keeps its percentage and its tokens (its voting power may
    have been rewritten), and the preference table is untouched. *)
Theorem ts_updateOwnership_lookup
    {N : Type} `{Number N} (this : LiquidityManagerState N)
    (address : string) (tokens_ percentage_ : N) :
  snd (TS.updateOwnership this address tokens_ percentage_) = Ok tt ->
  (exists vp,
      TS.getOwnershipDetails (fst (TS.updateOwnership this address tokens_ percentage_))
                             address
      = Ok {| percentage := percentage_; tokens := tokens_; voting_power := vp |})
  /\ (forall a o, a <> address ->
        obj_get (addyOwnership this) a = Some o ->
        exists vp,
          TS.getOwnershipDetails
            (fst (TS.updateOwnership this address tokens_ percentage_)) a
          = Ok {| percentage := percentage o; tokens := tokens o;
                  voting_power := vp |})
  /\ signedTxs (fst (TS.updateOwnership this address tokens_ percentage_))
     = signedTxs this.
Proof.
  unfold TS.updateOwnership.
  destruct (n_lt percentage_ n_zero || n_gt percentage_ n_one); [discriminate|].
  intros _. cbn [fst]. set (this1 := {| signedTxs := signedTxs this; addyOwnership := _ |}).
  split; [|split].
  - pose proof (ts_recalculate_lookup this1 address) as Hl.
    unfold this1 in Hl at 1. cbn [addyOwnership] in Hl.
    rewrite obj_get_set_same in Hl. destruct Hl as [vp Hvp].
    exists vp. unfold TS.getOwnershipDetails. now rewrite Hvp.
  - intros a o Ha Ho.
    pose proof (ts_recalculate_lookup this1 a) as Hl.
    unfold this1 in Hl at 1. cbn [addyOwnership] in Hl.
    rewrite obj_get_set_other, Ho in Hl by congruence. destruct Hl as [vp Hvp].
    exists vp. unfold TS.getOwnershipDetails. now rewrite Hvp.
  - now rewrite ts_recalculate_signedTxs.
Qed.

Lemma ts_updateOwnership_lookup_witness :
  snd (TS.updateOwnership Scenario.ledger "C" 1000%float 0.5%float) = Ok tt
  /\ (exists vp,
        TS.getOwnershipDetails
          (fst (TS.updateOwnership Scenario.ledger "C" 1000%float 0.5%float)) "C"
        = Ok (Scenario.owns 0.5%float 1000%float vp))
  /\ (exists vp,
        TS.getOwnershipDetails
          (fst (TS.updateOwnership Scenario.ledger "C" 1000%float 0.5%float)) "A"
        = Ok (Scenario.owns 0.6%float 1000000%float vp)).
Proof.
  assert (Hok : snd (TS.updateOwnership Scenario.ledger "C" 1000%float 0.5%float)
                = Ok tt) by reflexivity.
  destruct (@ts_updateOwnership_lookup _ _ Scenario.ledger "C" 1000%float 0.5%float
              Hok) as (Hnew & Hold & _).
  split; [exact Hok|]. split; [exact Hnew|].
  apply (Hold "A"%string (Scenario.owns 0.6%float 1000000%float 0.6%float));
    [discriminate|reflexivity].
Defined.

(** X9.  In [index.ts], after a successful [updateOwnership] for an address
    that is neither the name of a member that objects inherit from
    [Object.prototype] nor a string of digits, with [total] the sum of the
    percentages of the owners: when [total] is not 0 the
    voting power of every owner is its percentage divided by [total]; when
    it is 0 no voting power is recomputed and the state is the old one with
    the record written. *)
Theorem ts_updateOwnership_voting_power
    {N : Type} `{Number N} (this : LiquidityManagerState N) (address : string)
    (tokens_ percentage_ : N) :
  plain_key address ->
  snd (TS.updateOwnership this address tokens_ percentage_) = Ok tt ->
  let updated := fst (TS.updateOwnership this address tokens_ percentage_) in
  let total := total_percentage updated in
  (n_eq total n_zero = false ->
   forall a o, obj_get (addyOwnership updated) a = Some o ->
               voting_power o = n_div (percentage o) total)
  /\ (n_eq total n_zero = true ->
      updated = {| signedTxs := signedTxs this;
                 addyOwnership :=
                   obj_set (addyOwnership this) address
                           {| percentage := percentage_;
                              tokens := tokens_;
                              voting_power := percentage_ |} |}).
Proof.
  intros _. unfold TS.updateOwnership.
  destruct (n_lt percentage_ n_zero || n_gt percentage_ n_one); [discriminate|].
  intros _. cbv zeta. cbn [fst].
  set (this1 := {| signedTxs := signedTxs this; addyOwnership := _ |}).
  assert (Htotal : total_percentage (TS.recalculateVotingPower this1)
                   = total_percentage this1).
  { unfold total_percentage. now rewrite ts_recalculate_percentages. }
  rewrite Htotal. unfold TS.recalculateVotingPower, total_percentage.
  split.
  - intros Hz a o. rewrite Hz. cbn [addyOwnership].
    rewrite (obj_get_map_values
               (fun o => {| percentage := percentage o; tokens := tokens o;
                            voting_power :=
                              n_div (percentage o)
                                    (sum (map percentage
                                              (obj_values (addyOwnership this1)))) |})).
    destruct (obj_get (addyOwnership this1) a) as [o1|]; [|discriminate].
    intros [= <-]. reflexivity.
  - intro Hz. now rewrite Hz.
Qed.

Lemma ts_updateOwnership_voting_power_witness :
  let updated := fst (TS.updateOwnership Scenario.ledger "C" 1%float 0.5%float) in
  plain_key "C"
  /\ exists o, obj_get (addyOwnership updated) "A" = Some o
            /\ voting_power o = (0.6 / 1.5)%float.
Proof.
  intro updated.
  assert (Hplain : plain_key "C").
  { split; [|reflexivity]. unfold inherited_names. simpl. intuition discriminate. }
  assert (Hok : snd (TS.updateOwnership Scenario.ledger "C" 1%float 0.5%float)
                = Ok tt) by reflexivity.
  destruct (@ts_updateOwnership_voting_power _ _ Scenario.ledger "C"
              1%float 0.5%float Hplain Hok) as [Hdiv _].
  split; [exact Hplain|].
  specialize (Hdiv eq_refl "A"%string).
  fold updated in Hdiv.
  destruct (obj_get (addyOwnership updated) "A") as [o|] eqn:Ho.
  - exists o. split; [reflexivity|].
    rewrite (Hdiv o eq_refl).
    vm_compute in Ho. injection Ho as <-. reflexivity.
  - vm_compute in Ho. discriminate Ho.
Defined.


(** ** [getPairIncentiveDetails]: the order of the two tokens *)

Lemma find_pointwise {A} (p q : A -> bool) (l : list A) :
  (forall x, p x = q x) -> find p l = find q l.
Proof.
  intro Hpq. induction l as [|x l IH]; simpl; [reflexivity|].
  now rewrite Hpq, IH.
Qed.

(** X12.  [getPairIncentiveDetails] does not depend on the order in which
    the two tokens are given, in either implementation: the same pair with
    the same numbers, or the same failure, is returned for [(t1, t2)] and
    for [(t2, t1)]. *)
Theorem pair_details_order_independent
    {N : Type} `{Number N} (this : LiquidityManagerState N) (t1 t2 : string) :
  TS.getPairIncentiveDetails this t1 t2 = TS.getPairIncentiveDetails this t2 t1
  /\ JS.getPairIncentiveDetails this t1 t2 = JS.getPairIncentiveDetails this t2 t1.
Proof.
  split.
  - unfold TS.getPairIncentiveDetails.
    destruct (TS.getIncentivizedPairs this) as [pairs|e]; [|reflexivity].
    rewrite (@find_pointwise _ _ (fun p =>
               (String.eqb (pair_token1 p) t2 && String.eqb (pair_token2 p) t1)
               || (String.eqb (pair_token1 p) t1 && String.eqb (pair_token2 p) t2))
               pairs);
      [reflexivity|].
    intro p. apply orb_comm.
  - unfold JS.getPairIncentiveDetails. now rewrite (sort2_comm t1 t2).
Qed.

(** ** [getIncentivizedPairs]: how the pairs are filed *)


Lemma sort2_of_sorted (a b : string) :
  String.ltb b a = false -> sort2 a b = (a, b).
Proof. intro E. unfold sort2. now rewrite E. Qed.

Section JsTable.
Context {N : Type} `{Number N}.

End JsTable.


(** ** [getTopIncentivizedPairs]: prefixes, membership, ties *)

Lemma slice0_nonneg {A} (l : list A) (k : Z) :
  (0 <= k)%Z -> slice0 l k = firstn (Z.to_nat k) l.
Proof.
  intro Hk. unfold slice0.
  destruct (k <? 0)%Z eqn:E; [apply Z.ltb_lt in E; lia|].
  destruct (Z.le_gt_cases k (Z.of_nat (List.length l))) as [Hle|Hgt].
  - now rewrite Z.min_l.
  - rewrite Z.min_r by lia. rewrite Nat2Z.id, firstn_all.
    symmetry. apply firstn_all2. lia.
Qed.

Lemma slice0_prefix {A} (l : list A) (k k' : Z) :
  (0 <= k <= k')%Z -> slice0 l k = firstn (Z.to_nat k) (slice0 l k').
Proof.
  intro Hk. rewrite !slice0_nonneg by lia.
  rewrite firstn_firstn. f_equal. lia.
Qed.

Lemma slice0_incl {A} (l : list A) (k : Z) : incl (slice0 l k) l.
Proof.
  unfold slice0. set (n := Z.to_nat _). intros x Hx.
  rewrite <- (firstn_skipn n l). apply in_or_app. left. exact Hx.
Qed.

Lemma slice0_all {A} (l : list A) (k : Z) :
  (Z.of_nat (List.length l) <= k)%Z -> slice0 l k = l.
Proof.
  intro Hk. rewrite slice0_nonneg by lia. apply firstn_all2. lia.
Qed.

(** X14.  In both implementations the shorter ranking is the beginning of
    the longer one: for [0 <= k <= k'], [getTopIncentivizedPairs(k)] is the
    first [k] entries of [getTopIncentivizedPairs(k')]. *)
Theorem top_pairs_prefix
    {N : Type} `{Number N} (this : LiquidityManagerState N) (k k' : Z) :
  (0 <= k <= k')%Z ->
  (exists top top',
      TS.getTopIncentivizedPairs this (Some k) = Ok top
      /\ TS.getTopIncentivizedPairs this (Some k') = Ok top'
      /\ top = firstn (Z.to_nat k) top')
  /\ (exists top top',
         JS.getTopIncentivizedPairs this (Some k) = Ok top
         /\ JS.getTopIncentivizedPairs this (Some k') = Ok top'
         /\ top = firstn (Z.to_nat k) top').
Proof.
  intro Hk. split; do 2 eexists; (split; [reflexivity|]);
    (split; [reflexivity|]); now apply slice0_prefix.
Qed.

Lemma top_pairs_prefix_witness :
  exists top top',
    TS.getTopIncentivizedPairs Scenario.two_pairs (Some 1%Z) = Ok top
    /\ TS.getTopIncentivizedPairs Scenario.two_pairs (Some 2%Z) = Ok top'
    /\ top = firstn 1 top'.
Proof.
  assert (Hk : (0 <= 1 <= 2)%Z) by lia.
  destruct (@top_pairs_prefix _ _ Scenario.two_pairs 1 2 Hk) as [Hts _].
  exact Hts.
Defined.

(** X15.  [getTopIncentivizedPairs] returns only pairs of
    [getIncentivizedPairs], for every limit; when the limit is at least the
    number of pairs it returns all of them, reordered; and an omitted limit
    stands for 5 in [index.ts] and for 10 in [index.js]. *)
Theorem top_pairs_are_pairs
    {N : Type} `{Number N} (this : LiquidityManagerState N) (k : Z) :
  (exists pairs top,
      TS.getIncentivizedPairs this = Ok pairs
      /\ TS.getTopIncentivizedPairs this (Some k) = Ok top
      /\ incl top pairs
      /\ ((Z.of_nat (List.length pairs) <= k)%Z -> Permutation pairs top)
      /\ TS.getTopIncentivizedPairs this None
         = TS.getTopIncentivizedPairs this (Some 5%Z))
  /\ (exists table top,
         JS.getIncentivizedPairs this = Ok table
         /\ JS.getTopIncentivizedPairs this (Some k) = Ok top
         /\ incl top (obj_values table)
         /\ ((Z.of_nat (List.length table) <= k)%Z ->
             Permutation (obj_values table) top)
         /\ JS.getTopIncentivizedPairs this None
            = JS.getTopIncentivizedPairs this (Some 10%Z)).
Proof.
  split.
  - do 2 eexists. split; [reflexivity|]. split; [reflexivity|].
    set (cmp := fun a b : IncentivizedPair N =>
                  n_sub (totalIncentive b) (totalIncentive a)).
    pose proof (array_sort_perm cmp (obj_values (TS.incentive_table this))) as Hperm.
    split; [|split; [|reflexivity]].
    + intros x Hx. apply slice0_incl in Hx.
      eapply Permutation_in; [symmetry; exact Hperm|exact Hx].
    + intro Hk. rewrite slice0_all; [exact Hperm|].
      now rewrite <- (Permutation_length Hperm).
  - do 2 eexists. split; [reflexivity|]. split; [reflexivity|].
    set (cmp := fun a b : IncentivizedPair N =>
                  n_sub (totalIncentive b) (totalIncentive a)).
    set (table := fold_left (JS.add_address this) (signedTxs this) []).
    pose proof (array_sort_perm cmp (obj_values table)) as Hperm.
    split; [|split; [|reflexivity]].
    + intros x Hx. apply slice0_incl in Hx.
      eapply Permutation_in; [symmetry; exact Hperm|exact Hx].
    + intro Hk. rewrite slice0_all; [exact Hperm|].
      rewrite <- (Permutation_length Hperm). unfold obj_values.
      now rewrite length_map.
Qed.

Lemma sorted_stays (l : list (IncentivizedPair xnum)) :
  descending l ->
  array_sort (fun a b => n_sub (totalIncentive b) (totalIncentive a)) l = l.
Proof.
  induction 1 as [|x l Hl IH Hx]; [reflexivity|].
  cbn [array_sort fold_right]. fold (array_sort
    (fun a b : IncentivizedPair xnum => n_sub (totalIncentive b) (totalIncentive a)) l).
  rewrite IH. destruct l as [|y l]; [reflexivity|].
  apply Forall_inv in Hx. cbn [sort_insert].
  assert (Hnot : n_gt (n_sub (totalIncentive y) (totalIncentive x)) n_zero = false).
  { destruct (totalIncentive x) as [p| | |], (totalIncentive y) as [q| | |];
      simpl in Hx |- *; try contradiction; try reflexivity.
    apply qc_ltb_ge. apply Qcle_minus_iff in Hx.
    apply Qcopp_le_compat in Hx.
    replace (- (p + - q))%Qc with (q + - p)%Qc in Hx by ring.
    exact Hx. }
  now rewrite Hnot.
Qed.

(** X16.  Ties and sorted input (exact arithmetic): when the pairs of
    [getIncentivizedPairs] are already in descending order of
    [totalIncentive], equal totals included, [getTopIncentivizedPairs(k)]
    returns them in that same order, cut by [slice(0, k)]; pairs with equal
    totals are never swapped. *)
Theorem top_pairs_keeps_sorted_order
    (this : LiquidityManagerState xnum) (k : Z) :
  (forall pairs, TS.getIncentivizedPairs this = Ok pairs -> descending pairs ->
     TS.getTopIncentivizedPairs this (Some k) = Ok (slice0 pairs k))
  /\ (forall table, JS.getIncentivizedPairs this = Ok table ->
        descending (obj_values table) ->
        JS.getTopIncentivizedPairs this (Some k) = Ok (slice0 (obj_values table) k)).
Proof.
  split.
  - intros pairs [= <-] Hd. unfold TS.getTopIncentivizedPairs, TS.getIncentivizedPairs.
    now rewrite sorted_stays.
  - intros table [= <-] Hd. unfold JS.getTopIncentivizedPairs, JS.getIncentivizedPairs.
    now rewrite sorted_stays.
Qed.

(** ** Ledgers built through the methods of [index.ts] *)

Section BuiltFacts.
Context {N : Type} `{Number N}.




End BuiltFacts.



(** ** Pair keys *)

Lemma pair_key_cons (c : ascii) (a b : string) :
  pair_key (String c a) b = String c (pair_key a b).
Proof. reflexivity. Qed.

Lemma pair_key_inj (a b a' b' : string) :
  has_dash a = false -> has_dash a' = false ->
  pair_key a b = pair_key a' b' -> a = a' /\ b = b'.
Proof.
  revert a'. induction a as [|c a IH]; intros [|c' a'] Ha Ha' Hk.
  - injection Hk as ->. now split.
  - exfalso. rewrite pair_key_cons in Hk. injection Hk as <- _.
    simpl in Ha'. discriminate.
  - exfalso. rewrite pair_key_cons in Hk. injection Hk as -> _.
    simpl in Ha. discriminate.
  - rewrite !pair_key_cons in Hk. injection Hk as -> Hk.
    simpl in Ha, Ha'. apply orb_false_iff in Ha, Ha'.
    destruct (IH a' (proj2 Ha) (proj2 Ha') Hk) as [-> ->]. now split.
Qed.

(** X18.  The key [`${token1}-${token2}`] under which both implementations
    file a pair tells two pairs apart whenever their first tokens contain no
    ['-']: equal keys then mean equal first and equal second tokens. *)
Theorem pair_key_injective (a b a' b' : string) :
  has_dash a = false -> has_dash a' = false ->
  pair_key a b = pair_key a' b' <-> (a = a' /\ b = b').
Proof.
  intros Ha Ha'. split; [now apply pair_key_inj|now intros [-> ->]].
Qed.

Lemma pair_key_injective_witness :
  has_dash "ETH" = false /\ has_dash "BTC" = false
  /\ pair_key "ETH" "USDC" <> pair_key "BTC" "USDC".
Proof.
  split; [reflexivity|]. split; [reflexivity|].
  intro Hk.
  destruct (proj1 (@pair_key_injective "ETH" "USDC" "BTC" "USDC" eq_refl eq_refl) Hk)
    as [Hne _].
  discriminate.
Defined.

(** With a ['-'] in a first token two different pairs share a key. *)
Example pair_key_collision : pair_key "A-B" "C" = pair_key "A" "B-C".
Proof. reflexivity. Qed.

(** ** [getIncentivizedPairs] as one pass over the contributions *)

Section FoldFacts.
Context {A B C : Type}.

Lemma fold_left_map (g : A -> C -> A) (h : B -> C) (l : list B) (a : A) :
  fold_left g (map h l) a = fold_left (fun acc x => g acc (h x)) l a.
Proof. revert a. induction l as [|x l IH]; intro a; simpl; auto. Qed.

Lemma fold_left_flat_map (g : A -> C -> A) (h : B -> list C) (l : list B) (a : A) :
  fold_left g (flat_map h l) a
  = fold_left (fun acc x => fold_left g (h x) acc) l a.
Proof.
  revert a. induction l as [|x l IH]; intro a; simpl; [reflexivity|].
  rewrite fold_left_app. apply IH.
Qed.

Lemma fold_left_pointwise (f g : A -> B -> A) (l : list B) (a : A) :
  (forall acc x, f acc x = g acc x) -> fold_left f l a = fold_left g l a.
Proof.
  intro Hfg. revert a. induction l as [|x l IH]; intro a; simpl; [reflexivity|].
  now rewrite Hfg, IH.
Qed.

Lemma flat_map_pointwise (f g : B -> list C) (l : list B) :
  (forall x, In x l -> f x = g x) -> flat_map f l = flat_map g l.
Proof.
  induction l as [|x l IH]; intro Hfg; simpl; [reflexivity|].
  rewrite (Hfg x (or_introl eq_refl)), IH; [reflexivity|].
  intros y Hy. apply Hfg. now right.
Qed.

Lemma map_pointwise (f g : B -> C) (l : list B) :
  (forall x, In x l -> f x = g x) -> map f l = map g l.
Proof.
  induction l as [|x l IH]; intro Hfg; simpl; [reflexivity|].
  rewrite (Hfg x (or_introl eq_refl)), IH; [reflexivity|].
  intros y Hy. apply Hfg. now right.
Qed.

End FoldFacts.

Section PostingFacts.
Context {N : Type} `{Number N}.

Lemma ts_table_postings (this : LiquidityManagerState N) :
  TS.incentive_table this = fold_left post (ts_postings this) [].
Proof.
  unfold TS.incentive_table, ts_postings. rewrite fold_left_flat_map.
  apply fold_left_pointwise. intros table [address prefs]. simpl.
  destruct (obj_get (addyOwnership this) address) as [ownership|]; [|reflexivity].
  rewrite fold_left_map. apply fold_left_pointwise. reflexivity.
Qed.

Lemma js_table_postings (this : LiquidityManagerState N) :
  fold_left (JS.add_address this) (signedTxs this) []
  = fold_left post (js_postings this) [].
Proof.
  unfold js_postings. rewrite fold_left_flat_map.
  apply fold_left_pointwise. intros table [address prefs]. simpl.
  rewrite fold_left_map. apply fold_left_pointwise. intros acc p.
  unfold JS.add_contribution, post, js_key. simpl.
  now destruct (sort2 (token1 p) (token2 p)).
Qed.













End PostingFacts.

(** ** [getIncentivizedPairs]: addresses without an ownership record, again *)










(** Without the hypothesis the total and the map part: [index.js] files the
    records X-Y and Y-X of one address under one key, adds both to the
    total and keeps the last one in the map; [index.ts] keeps two pairs. *)
Example swapped_records_totals_differ :
  JS.getIncentivizedPairs Scenario.swapped
  = Ok [ ("X-Y"%string,
          {| pair_token1 := "X"; pair_token2 := "Y";
             totalIncentive := 0.75%float;
             addressIncentives := [("A", 0.25%float)]%string |}) ]
  /\ TS.getIncentivizedPairs Scenario.swapped
     = Ok [ {| pair_token1 := "X"; pair_token2 := "Y";
               totalIncentive := 0.5%float;
               addressIncentives := [("A", 0.5%float)]%string |};
            {| pair_token1 := "Y"; pair_token2 := "X";
               totalIncentive := 0.25%float;
               addressIncentives := [("A", 0.25%float)]%string |} ].
Proof. split; vm_compute; reflexivity. Qed.

(** ** Ledgers built through the methods of [index.ts] *)

Section BuiltTotals.
Context {N : Type} `{Number N}.


End BuiltTotals.



(** ** Where the two implementations agree *)

Lemma SFmul_comm prec emax (x y : spec_float) :
  SFmul prec emax x y = SFmul prec emax y x.
Proof.
  destruct x as [sx|sx| |sx mx ex], y as [sy|sy| |sy my ey]; simpl;
    try reflexivity; try (now rewrite xorb_comm).
  now rewrite xorb_comm, Pos.mul_comm, Z.add_comm.
Qed.

Lemma float_mul_comm (a b : float) : PrimFloat.mul a b = PrimFloat.mul b a.
Proof. apply Prim2SF_inj. rewrite !mul_spec. apply SFmul_comm. Qed.

Lemma js_votingPowerOf_number (s : LiquidityManagerState float) a o :
  obj_get (addyOwnership s) a = Some o ->
  n_truthy (voting_power o) = true \/ voting_power o = n_zero ->
  JS.votingPowerOf s a = voting_power o.
Proof.
  intros Ho Hnum. unfold JS.votingPowerOf. rewrite Ho.
  destruct Hnum as [Ht|Hz]; [now rewrite Ht|].
  rewrite Hz. now destruct (n_truthy n_zero).
Qed.

Lemma js_postings_ts_postings (s : LiquidityManagerState float) :
  sorted_records s -> owners_numbered s -> js_postings s = ts_postings s.
Proof.
  intros Hsorted Hown. unfold js_postings, ts_postings.
  apply flat_map_pointwise. intros [a prefs] Hin.
  destruct prefs as [|p0 prefs0] eqn:Hprefs.
  - simpl. now destruct (obj_get (addyOwnership s) a).
  - rewrite <- Hprefs in *.
    destruct (Hown a prefs Hin) as (o & Ho & Hnum); [subst prefs; discriminate|].
    rewrite Ho. apply map_pointwise. intros p Hp.
    pose proof (Hsorted a prefs p Hin Hp) as Hs.
    unfold js_key, ts_key. rewrite (@sort2_of_sorted _ _ Hs). simpl.
    rewrite (@js_votingPowerOf_number s a o Ho Hnum).
    f_equal. apply float_mul_comm.
Qed.

(** X23.  On binary64, on a ledger whose records all have tokens of
    characters below U+0080 in sorted order, and whose addresses with a
    record all have an ownership record with a voting power that is not
    [NaN] and not the negative zero, the two implementations compute the
    same pairs: the values of the table of [index.js], in its order, are the
    list of [index.ts], and with the same explicit limit
    [getTopIncentivizedPairs] returns the same list. *)
Theorem implementations_agree (s : LiquidityManagerState float) :
  ascii_records s ->
  sorted_records s ->
  owners_numbered s ->
  exists table,
    JS.getIncentivizedPairs s = Ok table
    /\ TS.getIncentivizedPairs s = Ok (obj_values table)
    /\ forall k, TS.getTopIncentivizedPairs s (Some k)
                 = JS.getTopIncentivizedPairs s (Some k).
Proof.
  intros _ Hsorted Hown.
  assert (Htable : TS.incentive_table s
                   = fold_left (JS.add_address s) (signedTxs s) []).
  { rewrite ts_table_postings, js_table_postings.
    now rewrite js_postings_ts_postings. }
  eexists. split; [reflexivity|].
  split.
  - unfold TS.getIncentivizedPairs. now rewrite Htable.
  - intro k. unfold TS.getTopIncentivizedPairs, JS.getTopIncentivizedPairs,
      TS.getIncentivizedPairs, JS.getIncentivizedPairs.
    now rewrite Htable.
Qed.

Lemma implementations_agree_witness :
  ascii_records Scenario.two_pairs
  /\ sorted_records Scenario.two_pairs
  /\ owners_numbered Scenario.two_pairs
  /\ exists table,
       JS.getIncentivizedPairs Scenario.two_pairs = Ok table
       /\ TS.getIncentivizedPairs Scenario.two_pairs = Ok (obj_values table).
Proof.
  assert (Ha : ascii_records Scenario.two_pairs).
  { intros a prefs p [[= <- <-]|[[= <- <-]|[]]] [<-|[]];
      split; repeat constructor. }
  assert (Hs : sorted_records Scenario.two_pairs).
  { intros a prefs p [[= <- <-]|[[= <- <-]|[]]] [<-|[]]; reflexivity. }
  assert (Ho : owners_numbered Scenario.two_pairs).
  { intros a prefs [[= <- <-]|[[= <- <-]|[]]] _;
      eexists; (split; [reflexivity|left; reflexivity]). }
  split; [exact Ha|]. split; [exact Hs|]. split; [exact Ho|].
  destruct (implementations_agree Ha Hs Ho) as (table & Hjs & Hts & _).
  now exists table.
Defined.

(** Outside these conditions the two differ: with swapped tokens, as in
    [swapped_records_totals_differ]; without an ownership record, where
    [index.js] files a pair with total 0 and [index.ts] files none; and with
    the voting power -0, which [index.js] replaces by 0. *)
Example unowned_implementations_differ :
  JS.getIncentivizedPairs Scenario.unowned
  = Ok [ ("X-Y"%string,
          {| pair_token1 := "X"; pair_token2 := "Y";
             totalIncentive := 0%float;
             addressIncentives := [("A", 0%float)]%string |}) ]
  /\ TS.getIncentivizedPairs Scenario.unowned = Ok [].
Proof. split; vm_compute; reflexivity. Qed.

Example negative_zero_implementations_differ :
  JS.getIncentivizedPairs Scenario.negative_zero
  = Ok [ ("X-Y"%string,
          {| pair_token1 := "X"; pair_token2 := "Y";
             totalIncentive := 0%float;
             addressIncentives := [("A", 0%float)]%string |}) ]
  /\ TS.getIncentivizedPairs Scenario.negative_zero
     = Ok [ {| pair_token1 := "X"; pair_token2 := "Y";
               totalIncentive := 0%float;
               addressIncentives := [("A", (-0)%float)]%string |} ].
Proof. split; vm_compute; reflexivity. Qed.

(** ** [getPairIncentiveDetails] of [index.ts]: the normalised contributions *)

Lemma fold_obj_set_map {V W} (g : V -> W) (o : Obj V) :
  NoDup (obj_keys o) ->
  forall acc,
    (forall k, In k (obj_keys o) -> ~ In k (obj_keys acc)) ->
    fold_left (fun acc '(address, incentive) => obj_set acc address (g incentive))
              o acc
    = acc ++ map (fun e => (fst e, g (snd e))) o.
Proof.
  induction o as [|[k v] o IH]; intros Hnd acc Hfresh; simpl.
  - now rewrite app_nil_r.
  - simpl in Hnd. inversion Hnd as [|? ? Hk Hnd']; subst.
    rewrite obj_set_fresh
      by (apply obj_get_None_keys; apply Hfresh; now left).
    rewrite IH; [now rewrite <- app_assoc|assumption|].
    intros k' Hk' Hin. unfold obj_keys in Hin. rewrite map_app in Hin.
    apply in_app_or in Hin. destruct Hin as [Hin|[<-|[]]].
    + apply (Hfresh k'); [now right|exact Hin].
    + now apply Hk.
Qed.

(** X24.  When [getPairIncentiveDetails] of [index.ts] succeeds, the
    normalised contributions are given for the addresses of the
    contributions, in the same order and each address once, and each is the
    contribution divided by the total that is reported, whatever that
    total. *)
Theorem ts_pair_details_normalised
    {N : Type} `{Number N} (this : LiquidityManagerState N) (t1 t2 : string)
    (d : PairIncentiveDetails N) :
  TS.getPairIncentiveDetails this t1 t2 = Ok d ->
  normalizedIncentives d
  = map (fun e => (fst e, n_div (snd e) (totalIncentive (details_pair d))))
        (addressIncentives (details_pair d))
  /\ obj_keys (normalizedIncentives d)
     = obj_keys (addressIncentives (details_pair d))
  /\ NoDup (obj_keys (normalizedIncentives d)).
Proof.
  unfold TS.getPairIncentiveDetails, TS.getIncentivizedPairs.
  destruct (find _ _) as [found|] eqn:Hfind; [|discriminate].
  intros [= <-]. cbn [details_pair normalizedIncentives totalIncentive
                      addressIncentives].
  apply find_some in Hfind. destruct Hfind as [Hin _].
  assert (Hnd : NoDup (obj_keys (addressIncentives found))).
  { unfold obj_values in Hin. apply in_map_iff in Hin.
    destruct Hin as (e & <- & Hin).
    pose proof (ts_incentive_table_maps_NoDup this) as Hall.
    rewrite Forall_forall in Hall. now apply Hall. }
  rewrite (@fold_obj_set_map _ _
             (fun c => n_div c (sum (obj_values (addressIncentives found))))
             _ Hnd []) by (intros k _ []).
  cbn [app].
  assert (Hkeys : obj_keys
                    (map (fun e => (fst e,
                                    n_div (snd e)
                                          (sum (obj_values (addressIncentives found)))))
                         (addressIncentives found))
                  = obj_keys (addressIncentives found)).
  { unfold obj_keys. now rewrite map_map. }
  split; [reflexivity|]. split; [exact Hkeys|]. now rewrite Hkeys.
Qed.

Lemma ts_pair_details_normalised_witness :
  exists d,
    TS.getPairIncentiveDetails Scenario.ledger "Y" "X" = Ok d
    /\ normalizedIncentives d
       = [ ("A", (0.42 / 0.62)%float); ("B", (0.2 / 0.62)%float) ]%string.
Proof.
  set (d := {| details_pair :=
                 {| pair_token1 := "X"; pair_token2 := "Y";
                    totalIncentive := 0.62%float;
                    addressIncentives :=
                      [("A", 0.42%float); ("B", 0.2%float)]%string |};
               normalizedIncentives :=
                 [ ("A", (0.42 / 0.62)%float);
                   ("B", (0.2 / 0.62)%float) ]%string |}).
  assert (Hd : TS.getPairIncentiveDetails Scenario.ledger "Y" "X" = Ok d)
    by (vm_compute; reflexivity).
  destruct (ts_pair_details_normalised Scenario.ledger "Y" "X" Hd) as [Hn _].
  exists d. split; [exact Hd|]. rewrite Hn. reflexivity.
Defined.
